(** * The search aggregation and cache coordinator of server.js

    A shallow embedding of the [/api/search] handler of the 3D model search
    server, of the two caches it talks to (the node-cache memory cache and
    the SQLite [searches] table) and of the boundary of the three scrapers,
    followed by the properties of the handler.

    JavaScript runs the handler on one thread: the code between two
    [await]s is atomic.  The handler has a single suspension point, the
    [await Promise.allSettled(...)] of its two fetching branches, so it is
    modelled as two atomic turns, [search_start] (up to the await) and
    [search_finish] (after it).  [handle] runs them back to back; the event
    loop of [Module Loop] lets the turns of several requests interleave.

    The loops the scrapers run inside [page.evaluate], the health endpoint
    and the grouping and the search of the page ([App.jsx]) are embedded
    too. *)

From Stdlib Require Import ZArith List Bool Lia Ascii String.
From stdpp Require Import gmap strings list fin_maps.
Import ListNotations.

Local Open Scope string_scope.

(** ** Data *)

(** The three platforms, in the order the handler lists them. *)
Inductive Source := Thingiverse | Printables | MakerWorld.

Definition all_sources : list Source := [Thingiverse; Printables; MakerWorld].

(** The value of the [source] field the scraper of a platform writes. *)
Definition source_tag (s : Source) : string :=
  match s with
  | Thingiverse => "thingiverse"
  | Printables => "printables"
  | MakerWorld => "makerworld"
  end.

#[global] Instance Source_eq_dec : EqDecision Source.
Proof. solve_decision. Defined.

(** What [page.evaluate] hands back for one card of a result page. *)
Record RawItem := {
  item_title : string;
  item_link : string;
  item_thumbnail : string;
  item_author : string;
  item_likes : Z;
  item_downloads : Z
}.

(** One formatted search hit. [lid] is the [id] field. *)
Record Listing := {
  lid : string;
  title : string;
  thumbnail : string;
  author : string;
  source : string;
  url : string;
  likes : Z;
  downloads : Z
}.

(** The [sources] object: one count per platform. *)
Record SourceCounts := {
  thingiverse : nat;
  printables : nat;
  makerworld : nat
}.

Definition count_of (s : Source) (c : SourceCounts) : nat :=
  match s with
  | Thingiverse => thingiverse c
  | Printables => printables c
  | MakerWorld => makerworld c
  end.

(** The object sent with [res.json]. A freshly built response has the four
    fields [query], [total], [results], [sources]; the object built by
    [getCachedSearch] carries [cached: true] and [cached_at] besides, which
    is [cached_at = Some t] here. *)
Record Response := {
  query : string;
  total : nat;
  results : list Listing;
  sources : SourceCounts;
  cached_at : option Z
}.

Inductive Reply :=
| Status400 (error : string)
| Status500 (error : string)
| Json (body : Response).

(** A row of the [searches] table. The [results] and [sources] columns hold
    [JSON.stringify] of values made of strings and finite numbers, on which
    [JSON.parse] is its inverse, so the row holds the values themselves. *)
Record Row := {
  row_results : list Listing;
  row_sources : SourceCounts;
  created_at : Z;
  updated_at : Z
}.

(** The memory cache maps a key to a value and the time it expires; the table
    maps a query (its UNIQUE column) to its row. *)
Record State := {
  cache : gmap string (Z * Response);
  db : gmap string Row
}.

Definition empty_state : State := {| cache := ∅; db := ∅ |}.

(** ** The scrapers, at their boundary *)

(** [x || 0] on a number. *)
Definition or_zero (x : Z) : Z := if (x =? 0)%Z then 0%Z else x.

(** The [results.map(item => ({...}))] of the three scrapers, which differ in
    the tag only. *)
Definition formatResults (s : Source) (items : list RawItem) : list Listing :=
  map (fun item =>
         {| lid := source_tag s +:+ "_" +:+ item_link item;
            title := item_title item;
            thumbnail := item_thumbnail item;
            author := item_author item;
            source := source_tag s;
            url := item_link item;
            likes := or_zero (item_likes item);
            downloads := or_zero (item_downloads item) |}) items.

(** What happens inside the [try] block of a scraper: the page is scraped
    ([Scraped items]; the early [return []] of the Thingiverse challenge page
    is [Scraped []]), or something throws ([Threw]: the browser launch, the
    30 s navigation timeout, the evaluation). *)
Inductive Scrape :=
| Scraped (items : list RawItem)
| Threw.

(** One run of a scraper: its [try] block, and whether [page.close()] in the
    [finally] block throws, which rejects the promise. *)
Record AdapterRun := {
  scrape : Scrape;
  close_throws : bool
}.

(** An entry of the array [Promise.allSettled] resolves to. *)
Inductive Settled :=
| Fulfilled (value : list Listing)
| Rejected.

Definition search (s : Source) (r : AdapterRun) : Settled :=
  if close_throws r then Rejected
  else Fulfilled (match scrape r with
                  | Scraped items => formatResults s items
                  | Threw => []
                  end).

Definition searchThingiverse := search Thingiverse.
Definition searchPrintables := search Printables.
Definition searchMakerWorld := search MakerWorld.

(** ** Effects *)

(** What the handler does to the outside, in order. *)
Inductive Event :=
| DbGet (q : string)
| DbUpsert (q : string)
| CacheGet (key : string)
| CacheSet (key : string)
| Invoke (s : Source) (q : string).

#[global] Instance Event_eq_dec : EqDecision Event.
Proof. solve_decision. Defined.

(** The surroundings of one atomic turn: the clock, in seconds, and whether
    the SQLite statement of the turn runs without throwing. *)
Record Tick := {
  now : Z;
  db_ok : bool
}.

(** A turn reads the tick, changes the state and leaves a trace. *)
Definition Eff (A : Type) : Type := Tick -> State -> A * State * list Event.

Definition ret {A} (a : A) : Eff A := fun _ st => (a, st, []).

Definition bind {A B} (m : Eff A) (k : A -> Eff B) : Eff B :=
  fun t st =>
    let '(a, st1, l1) := m t st in
    let '(b, st2, l2) := k a t st1 in
    (b, st2, (l1 ++ l2)%list).

Declare Scope eff_scope.
Delimit Scope eff_scope with eff.
Notation "'do' x <- m ; k" := (bind m (fun x => k))
  (at level 10, x name, m at level 100, k at level 200) : eff_scope.
Notation "m ;; k" := (bind m (fun _ => k))
  (at level 100, k at level 200, right associativity) : eff_scope.

(** ** The memory cache ([new NodeCache({ stdTTL: 3600 })]) *)

Definition stdTTL : Z := 3600.

(** [cache.get(key)]: the value, unless it is missing or has expired. *)
Definition cache_lookup (t : Z) (m : gmap string (Z * Response)) (key : string)
  : option Response :=
  match m !! key with
  | Some (expires, v) => if (expires <? t)%Z then None else Some v
  | None => None
  end.

Definition cache_get (key : string) : Eff (option Response) :=
  fun t st => (cache_lookup (now t) (cache st) key, st, [CacheGet key]).

(** [cache.set(key, value)]: overwrites, with a fresh expiry. *)
Definition cache_set (key : string) (v : Response) : Eff unit :=
  fun t st =>
    (tt, {| cache := <[key := ((now t + stdTTL)%Z, v)]> (cache st); db := db st |},
     [CacheSet key]).

(** ** The table *)

(** [getCachedSearch]: the row of the query as a response object, or [null]
    when there is none or the read throws. *)
Definition row_response (q : string) (row : Row) : Response :=
  {| query := q;
     results := row_results row;
     sources := row_sources row;
     total := length (row_results row);
     cached_at := Some (updated_at row) |}.

Definition db_read (t : Tick) (st : State) (q : string) : option Response :=
  if db_ok t then row_response q <$> db st !! q else None.

Definition getCachedSearch (q : string) : Eff (option Response) :=
  fun t st => (db_read t st q, st, [DbGet q]).

(** The upsert of [insertSearchStmt]: a new row, or on conflict the same row
    with [results], [sources] and [updated_at] replaced. *)
Definition upsert (t : Z) (q : string) (rs : list Listing) (c : SourceCounts)
  (d : gmap string Row) : gmap string Row :=
  match d !! q with
  | Some old =>
      <[q := {| row_results := rs; row_sources := c;
                created_at := created_at old; updated_at := t |}]> d
  | None =>
      <[q := {| row_results := rs; row_sources := c;
                created_at := t; updated_at := t |}]> d
  end.

(** [cacheSearch]: the upsert, or nothing when it throws. *)
Definition cacheSearch (q : string) (rs : list Listing) (c : SourceCounts) : Eff unit :=
  fun t st =>
    (tt, if db_ok t
         then {| cache := cache st; db := upsert (now t) q rs c (db st) |}
         else st,
     [DbUpsert q]).

(** The clean-up at start-up: rows not updated for seven days go. *)
Definition retention : Z := 604800.

Definition cleanOldSearches (t : Z) (d : gmap string Row) : gmap string Row :=
  filter (fun kv => (t - retention <= updated_at (snd kv))%Z) d.

(** ** The handler of [/api/search] *)

Definition cacheKey (q : string) : string := "search_" +:+ q.

(** [results.filter(r => r.source === tag)]. *)
Definition by_source (s : Source) (l : list Listing) : list Listing :=
  List.filter (fun r => String.eqb (source r) (source_tag s)) l.

(** An element of the array [searchPromises]: the promise of a scraper call,
    or [Promise.resolve(value)]. *)
Inductive Promise :=
| Call (s : Source)
| Resolved (value : list Listing).

Definition invoke (s : Source) (q : string) : Eff Promise :=
  fun _ st => (Call s, st, [Invoke s q]).

(** The two places where the handler awaits. *)
Inductive Branch := PartialRefresh | FullFetch.

(** A request suspended at its [await Promise.allSettled(searchPromises)]. *)
Record Pending := {
  branch : Branch;
  pending_query : string;
  searchPromises : Promise * Promise * Promise
}.

Inductive Started :=
| Replied (r : Reply)
| Awaiting (p : Pending).

Definition needsRefresh (dbCached : Response) : bool :=
  (thingiverse (sources dbCached) =? 0)%nat ||
  (printables (sources dbCached) =? 0)%nat ||
  (makerworld (sources dbCached) =? 0)%nat.

(** A platform is searched again when its count is 0, and carried over from
    the cached record otherwise. *)
Definition refresh (s : Source) (q : string) (dbCached : Response) : Eff Promise :=
  if (count_of s (sources dbCached) =? 0)%nat
  then invoke s q
  else ret (Resolved (by_source s (results dbCached))).

Local Open Scope eff_scope.

(** The handler up to its [await]; [q] is [req.query.q]. *)
Definition search_start (q : option string) : Eff Started :=
  match q with
  | None | Some "" => ret (Replied (Status400 "Query parameter required"))
  | Some query =>
      do dbCached <- getCachedSearch query;
      match dbCached with
      | Some dbCached =>
          if needsRefresh dbCached then
            do p0 <- refresh Thingiverse query dbCached;
            do p1 <- refresh Printables query dbCached;
            do p2 <- refresh MakerWorld query dbCached;
            ret (Awaiting {| branch := PartialRefresh; pending_query := query;
                             searchPromises := (p0, p1, p2) |})
          else ret (Replied (Json dbCached))
      | None =>
          do cached <- cache_get (cacheKey query);
          match cached with
          | Some cached => ret (Replied (Json cached))
          | None =>
              do p0 <- invoke Thingiverse query;
              do p1 <- invoke Printables query;
              do p2 <- invoke MakerWorld query;
              ret (Awaiting {| branch := FullFetch; pending_query := query;
                               searchPromises := (p0, p1, p2) |})
          end
      end
  end.

(** [x.status === 'fulfilled' ? x.value : []]. *)
Definition value_or_empty (x : Settled) : list Listing :=
  match x with
  | Fulfilled value => value
  | Rejected => []
  end.

(** The handler after its [await], on the settled array. Both branches build
    the response, write the two caches and send it. The [try] of the full
    fetch has nothing in it that throws here, so its [catch], which answers
    [Status500], is not reached. *)
Definition search_finish (p : Pending) (settled : Settled * Settled * Settled)
  : Eff Reply :=
  let query := pending_query p in
  match branch p with
  | PartialRefresh =>
      let thingiverseResults := value_or_empty (settled.1.1) in
      let printablesResults := value_or_empty (settled.1.2) in
      let makerworldResults := value_or_empty (settled.2) in
      let allResults :=
        (thingiverseResults ++ printablesResults ++ makerworldResults)%list in
      let response :=
        {| query := query;
           total := length allResults;
           results := allResults;
           sources := {| thingiverse := length thingiverseResults;
                         printables := length printablesResults;
                         makerworld := length makerworldResults |};
           cached_at := None |} in
      cache_set ("search_" +:+ query) response ;;
      cacheSearch query allResults (sources response) ;;
      ret (Json response)
  | FullFetch =>
      let cacheKey := cacheKey query in
      let thingiverseResults := value_or_empty (settled.1.1) in
      let printablesResults := value_or_empty (settled.1.2) in
      let makerworldResults := value_or_empty (settled.2) in
      let allResults :=
        (thingiverseResults ++ printablesResults ++ makerworldResults)%list in
      let response :=
        {| query := query;
           total := length allResults;
           results := allResults;
           sources := {| thingiverse := length thingiverseResults;
                         printables := length printablesResults;
                         makerworld := length makerworldResults |};
           cached_at := None |} in
      cache_set cacheKey response ;;
      cacheSearch query allResults (sources response) ;;
      ret (Json response)
  end.

Local Close Scope eff_scope.

(** How a promise settles, given how each scraper run goes. *)
Definition settle (world : Source -> AdapterRun) (p : Promise) : Settled :=
  match p with
  | Call s => search s (world s)
  | Resolved value => Fulfilled value
  end.

Definition allSettled (world : Source -> AdapterRun)
  (ps : Promise * Promise * Promise) : Settled * Settled * Settled :=
  (settle world ps.1.1, settle world ps.1.2, settle world ps.2).

(** One request served without anything else in between: the tick of its
    first turn, the scraper runs, the tick of its second turn. *)
Record Env := {
  arrival : Tick;
  world : Source -> AdapterRun;
  completion : Tick
}.

Definition handle (e : Env) (st : State) (q : option string)
  : Reply * State * list Event :=
  let '(started, st1, l1) := search_start q (arrival e) st in
  match started with
  | Replied r => (r, st1, l1)
  | Awaiting p =>
      let '(r, st2, l2) :=
        search_finish p (allSettled (world e) (searchPromises p)) (completion e) st1 in
      (r, st2, (l1 ++ l2)%list)
  end.

(** The scrapers a trace invoked, in order. *)
Definition invoked (l : list Event) : list Source :=
  flat_map (fun ev => match ev with Invoke s _ => [s] | _ => [] end) l.

(** ** The event loop *)

Module Loop.

(** The server between two turns: the caches and the suspended requests. *)
Record Sys := {
  state : State;
  inflight : list Pending
}.

Definition boot : Sys := {| state := empty_state; inflight := [] |}.

(** A turn of the loop: a request arrives and runs to its reply or its
    await; the promises of the [i]-th suspended request settle and it runs to
    its reply; or the process is started again, which empties the memory
    cache, drops what was suspended and cleans the table. *)
Inductive Action :=
| Arrive (t : Tick) (q : option string)
| Complete (i : nat) (w : Source -> AdapterRun) (t : Tick)
| Restart (t : Z).

Definition step (a : Action) (s : Sys) : Sys * list Event * option Reply :=
  match a with
  | Arrive t q =>
      let '(started, st1, l) := search_start q t (state s) in
      match started with
      | Replied r => ({| state := st1; inflight := inflight s |}, l, Some r)
      | Awaiting p =>
          ({| state := st1; inflight := (inflight s ++ [p])%list |}, l, None)
      end
  | Complete i w t =>
      match inflight s !! i with
      | Some p =>
          let '(r, st1, l) :=
            search_finish p (allSettled w (searchPromises p)) t (state s) in
          ({| state := st1; inflight := delete i (inflight s) |}, l, Some r)
      | None => (s, [], None)
      end
  | Restart t =>
      ({| state := {| cache := ∅; db := cleanOldSearches t (db (state s)) |};
          inflight := [] |}, [], None)
  end.

(** A schedule run from a state: the final state, the whole trace and the
    replies sent, in order. *)
Fixpoint run (sched : list Action) (s : Sys) : Sys * list Event * list Reply :=
  match sched with
  | [] => (s, [], [])
  | a :: rest =>
      let '(s1, l1, r1) := step a s in
      let '(s2, l2, r2) := run rest s1 in
      (s2, (l1 ++ l2)%list, (option_list r1 ++ r2)%list)
  end.

(** The states the server can be in. *)
Definition reachable (s : Sys) : Prop :=
  exists sched, (run sched boot).1.1 = s.

End Loop.

(** ** Notions used in the statements *)

(** All listings of [l] carry the tag of [s]. *)
Definition tagged (s : Source) (l : list Listing) : Prop :=
  Forall (fun r => source r = source_tag s) l.

(** A promise in the slot of platform [s]: a call of its scraper, or a
    resolved list of listings of [s]. *)
Definition slot_of (s : Source) (p : Promise) : Prop :=
  match p with
  | Call s' => s' = s
  | Resolved value => tagged s value
  end.

Definition wf_pending (p : Pending) : Prop :=
  slot_of Thingiverse (searchPromises p).1.1 /\
  slot_of Printables (searchPromises p).1.2 /\
  slot_of MakerWorld (searchPromises p).2.

(** The slot [refresh] fills. *)
Definition refreshed (s : Source) (dbCached : Response) : Promise :=
  if (count_of s (sources dbCached) =? 0)%nat
  then Call s
  else Resolved (by_source s (results dbCached)).

(** The platforms of a cached record whose count is 0. *)
Definition zero_sources (dbCached : Response) : list Source :=
  List.filter (fun s => (count_of s (sources dbCached) =? 0)%nat) all_sources.

(** The response both fetching branches build from the three result lists. *)
Definition fresh_response (q : string) (lt lp lm : list Listing) : Response :=
  {| query := q;
     total := length (lt ++ lp ++ lm)%list;
     results := (lt ++ lp ++ lm)%list;
     sources := {| thingiverse := length lt;
                   printables := length lp;
                   makerworld := length lm |};
     cached_at := None |}.

(** The state after both caches were written with a response. *)
Definition written (t : Tick) (q : string) (r : Response) (st : State) : State :=
  {| cache := <[cacheKey q := ((now t + stdTTL)%Z, r)]> (cache st);
     db := if db_ok t
           then upsert (now t) q (results r) (sources r) (db st)
           else db st |}.

(** [total] is the number of listings, and each count is the number of
    listings of its platform. *)
Definition consistent (r : Response) : Prop :=
  total r = length (results r) /\
  forall s, count_of s (sources r) = length (by_source s (results r)).

Definition row_consistent (row : Row) : Prop :=
  forall s, count_of s (row_sources row) = length (by_source s (row_results row)).

Definition wf_state (st : State) : Prop :=
  (forall k x, cache st !! k = Some x -> consistent x.2) /\
  (forall q row, db st !! q = Some row -> row_consistent row).

Definition wf_sys (s : Loop.Sys) : Prop :=
  wf_state (Loop.state s) /\ Forall wf_pending (Loop.inflight s).

(** What the three promises of a suspended request merge to. *)
Definition merged (w : Source -> AdapterRun) (q : string)
  (ps : Promise * Promise * Promise) : Response :=
  fresh_response q (value_or_empty (settle w ps.1.1))
    (value_or_empty (settle w ps.1.2)) (value_or_empty (settle w ps.2)).

Definition refreshed_all (c : Response) : Promise * Promise * Promise :=
  (refreshed Thingiverse c, refreshed Printables c, refreshed MakerWorld c).

Definition call_all : Promise * Promise * Promise :=
  (Call Thingiverse, Call Printables, Call MakerWorld).

(** ** A worked scenario *)

Definition sample (n : string) : RawItem :=
  {| item_title := n; item_link := "/model/" +:+ n; item_thumbnail := "";
     item_author := "Unknown"; item_likes := 0; item_downloads := 0 |}.

Definition scraped (items : list RawItem) : AdapterRun :=
  {| scrape := Scraped items; close_throws := false |}.

Definition threw : AdapterRun := {| scrape := Threw; close_throws := false |}.

Definition two_each : Source -> AdapterRun :=
  fun _ => scraped [sample "a"; sample "b"].

Definition printables_down : Source -> AdapterRun :=
  fun s => match s with
           | Printables => threw
           | _ => scraped [sample "a"; sample "b"]
           end.

Definition all_down : Source -> AdapterRun := fun _ => threw.

Definition tick (n : Z) : Tick := {| now := n; db_ok := true |}.

Definition env_at (n : Z) (w : Source -> AdapterRun) : Env :=
  {| arrival := tick n; world := w; completion := tick (n + 5) |}.

(** The server after one search during which Printables was down. *)
Definition sys_printables_missing : Loop.Sys :=
  (Loop.run [Loop.Arrive (tick 0) (Some "phone holder");
             Loop.Complete 0 printables_down (tick 5)] Loop.boot).1.1.

(** The server after one search that found two listings on each platform. *)
Definition sys_all_found : Loop.Sys :=
  (Loop.run [Loop.Arrive (tick 0) (Some "phone holder");
             Loop.Complete 0 two_each (tick 5)] Loop.boot).1.1.

(** The same, after the process was started again a minute later. *)
Definition sys_restarted : Loop.Sys :=
  (Loop.run [Loop.Arrive (tick 0) (Some "phone holder");
             Loop.Complete 0 two_each (tick 5);
             Loop.Restart 60] Loop.boot).1.1.

(** The row the table holds after the search that found two listings each. *)
Definition row_all_found : Row :=
  {| row_results := results (merged two_each "phone holder" call_all);
     row_sources := sources (merged two_each "phone holder" call_all);
     created_at := 5;
     updated_at := 5 |}.

(** The row after the search during which Printables was down. *)
Definition row_printables_missing : Row :=
  {| row_results := results (merged printables_down "phone holder" call_all);
     row_sources := sources (merged printables_down "phone holder" call_all);
     created_at := 5;
     updated_at := 5 |}.

(** A scraper run fails when something throws inside its [try] block (the
    navigation timeout included) or when closing the page throws. *)
Definition adapter_fails (r : AdapterRun) : Prop :=
  scrape r = Threw \/ close_throws r = true.

Definition no_counts : SourceCounts :=
  {| thingiverse := 0; printables := 0; makerworld := 0 |}.

(** The response of a search in which nothing was found. *)
Definition empty_response (q : string) : Response :=
  {| query := q; total := 0; results := []; sources := no_counts; cached_at := None |}.

(** ** Query texts *)

(** The white space of [String.prototype.trim] within ASCII. *)
Definition is_space (a : ascii) : bool :=
  (Ascii.eqb a " " || Ascii.eqb a "009" || Ascii.eqb a "010" ||
   Ascii.eqb a "011" || Ascii.eqb a "012" || Ascii.eqb a "013")%char.

Fixpoint all_space (q : string) : bool :=
  match q with
  | "" => true
  | String a rest => is_space a && all_space rest
  end.

(** A query that is not empty and has white space only. *)
Definition whitespace_only (q : string) : Prop :=
  q <> "" /\ all_space q = true.

(** The normal form the specification describes, written from its words: the
    text with white space trimmed at both ends and letters folded to lower
    case. The handler has no counterpart of it. *)
Definition fold_case (a : ascii) : ascii :=
  let n := nat_of_ascii a in
  if Nat.leb 65 n && Nat.leb n 90 then ascii_of_nat (n + 32) else a.

Fixpoint drop_spaces (l : list ascii) : list ascii :=
  match l with
  | a :: rest => if is_space a then drop_spaces rest else l
  | [] => []
  end.

Definition spec_normalize (q : string) : string :=
  string_of_list_ascii
    (map fold_case (rev (drop_spaces (rev (drop_spaces (list_ascii_of_string q)))))).

(** A request suspended in its full fetch. *)
Definition full_pending (q : string) : Pending :=
  {| branch := FullFetch; pending_query := q; searchPromises := call_all |}.

(** Two requests for the same query arrive one after the other, then the
    promises of the first settle, then those of the second, when Printables
    has gone down. *)
Definition two_arrivals : list Loop.Action :=
  [Loop.Arrive (tick 0) (Some "phone holder");
   Loop.Arrive (tick 1) (Some "phone holder");
   Loop.Complete 0 two_each (tick 5);
   Loop.Complete 0 printables_down (tick 6)].

(** A request during which the write to the table throws, while every
    scraper fails. *)
Definition env_write_fails : Env :=
  {| arrival := tick 0; world := all_down;
     completion := {| now := 5; db_ok := false |} |}.

(** The state after a restart at time [t]: the memory cache is empty and
    the table is cleaned. *)
Definition restarted (t : Z) (st : State) : State :=
  {| cache := ∅; db := cleanOldSearches t (db st) |}.

(** The events that write a cache. *)
Definition is_write (ev : Event) : bool :=
  match ev with
  | CacheSet _ | DbUpsert _ => true
  | _ => false
  end.

(** ** Invariants of what is cached and sent *)

(** A list of listings is made of the listings of Thingiverse, then those of
    Printables, then those of MakerWorld, and the part of each platform
    satisfies [Q]. *)
Definition segments_ok (Q : Source -> list Listing -> Prop) (rs : list Listing) : Prop :=
  rs = (by_source Thingiverse rs ++ by_source Printables rs
          ++ by_source MakerWorld rs)%list /\
  forall s, Q s (by_source s rs).

Definition state_ok (Q : Source -> list Listing -> Prop) (st : State) : Prop :=
  (forall k x, cache st !! k = Some x -> segments_ok Q (results x.2)) /\
  (forall q row, db st !! q = Some row -> segments_ok Q (row_results row)).

Definition promise_ok (Q : Source -> list Listing -> Prop) (s : Source) (p : Promise)
  : Prop :=
  match p with
  | Call _ => True
  | Resolved value => Q s value
  end.

Definition pending_ok (Q : Source -> list Listing -> Prop) (p : Pending) : Prop :=
  wf_pending p /\
  promise_ok Q Thingiverse (searchPromises p).1.1 /\
  promise_ok Q Printables (searchPromises p).1.2 /\
  promise_ok Q MakerWorld (searchPromises p).2.

Definition sys_ok (Q : Source -> list Listing -> Prop) (s : Loop.Sys) : Prop :=
  state_ok Q (Loop.state s) /\ Forall (pending_ok Q) (Loop.inflight s).

(** The scraper runs of a turn satisfy [W]. *)
Definition action_ok (W : (Source -> AdapterRun) -> Prop) (a : Loop.Action) : Prop :=
  match a with
  | Loop.Complete _ w _ => W w
  | _ => True
  end.

(** The [id] of a listing is its [source], an underscore and its [url]. *)
Definition id_from_url (r : Listing) : Prop :=
  lid r = source r +:+ "_" +:+ url r.

(** No scraper run returns more than ten items. *)
Definition capped (w : Source -> AdapterRun) : Prop :=
  forall s items, scrape (w s) = Scraped items -> length items <= 10.

(** One search that found listings everywhere, then a request served from
    the table, then a search for another text while Printables is down. *)
Definition three_requests : list Loop.Action :=
  [Loop.Arrive (tick 0) (Some "phone holder");
   Loop.Complete 0 two_each (tick 5);
   Loop.Arrive (tick 10) (Some "phone holder");
   Loop.Arrive (tick 20) (Some "benchy");
   Loop.Complete 0 printables_down (tick 25)].

(** ** Inside [page.evaluate]: from cards to items *)

(** The callbacks passed to [page.evaluate] walk the cards of a result page.
    What the DOM queries of a card return is given by a record; a missing
    element or attribute ([null], [undefined]) is [None]. The numbers of
    likes and downloads are read from free text with [parseFloat] and
    [Math.round], or [parseInt]; the records hold the number read. *)

(** [a || b || ...] on strings that may be missing: the first one that is
    there and not empty. When there is none the JavaScript value is falsy,
    and so is [None] here. *)
Fixpoint first_truthy (l : list (option string)) : option string :=
  match l with
  | [] => None
  | Some s :: rest => if String.eqb s "" then first_truthy rest else Some s
  | None :: rest => first_truthy rest
  end.

(** [x || d] for a default [d]. *)
Definition or_default (x : option string) (d : string) : string :=
  match first_truthy [x] with
  | Some s => s
  | None => d
  end.

(** [link.startsWith('http') ? link : `${site}${link}`]. *)
Definition absolute (site link : string) : string :=
  if String.prefix "http" link then link else site +:+ link.

(** A card of the Thingiverse page ([div[class*="ItemCardContainer"]]). *)
Record ThingCard := {
  tv_link : option string;
  tv_title_attr : option string;
  tv_title_text : option string;
  tv_img_content_src : option string;
  tv_img_src : option string;
  tv_img_data_src : option string;
  tv_author_text : option string;
  tv_likes : Z
}.

(** The body of the [forEach] of [searchThingiverse], after the test of the
    length: the item the card adds, if it adds one. The [try] around it has
    nothing in it that throws on a card given this way. *)
Definition thingiverseItem (card : ThingCard) : option RawItem :=
  match tv_link card with
  | None => None
  | Some link =>
      let title :=
        or_default (first_truthy [tv_title_attr card; tv_title_text card]) "Untitled" in
      let thumbnail :=
        first_truthy [tv_img_content_src card; tv_img_src card; tv_img_data_src card] in
      let author := or_default (tv_author_text card) "Unknown" in
      if negb (String.eqb title "") && negb (String.eqb link "")
      then Some {| item_title := title;
                   item_link := absolute "https://www.thingiverse.com" link;
                   item_thumbnail := or_default thumbnail "";
                   item_author := author;
                   item_likes := tv_likes card;
                   item_downloads := 0 |}
      else None
  end.

(** A card of the Printables page ([article[data-testid="model"]]);
    [pr_thumbnail] is the variable [thumbnail] after the search through the
    picture and image elements. *)
Record PrintablesArticle := {
  pr_link : option string;
  pr_h5_text : option string;
  pr_link_text : option string;
  pr_thumbnail : option string;
  pr_author_text : option string;
  pr_likes : Z;
  pr_downloads : Z
}.

Definition printablesItem (article : PrintablesArticle) : option RawItem :=
  match pr_link article with
  | None => None
  | Some link =>
      let title := first_truthy [pr_h5_text article; pr_link_text article] in
      let author := or_default (pr_author_text article) "Unknown" in
      match title with
      | Some title =>
          if negb (String.eqb link "")
          then Some {| item_title := title;
                       item_link := absolute "https://www.printables.com" link;
                       item_thumbnail := or_default (pr_thumbnail article) "";
                       item_author := author;
                       item_likes := pr_likes article;
                       item_downloads := pr_downloads article |}
          else None
      | None => None
      end
  end.

(** [items.length >= 10] returns at once; otherwise the card adds its item. *)
Definition push_capped {A} (item : A -> option RawItem) (items : list RawItem) (card : A)
  : list RawItem :=
  if (10 <=? length items)%nat then items
  else match item card with
       | Some it => (items ++ [it])%list
       | None => items
       end.

Definition thingiverseItems (cards : list ThingCard) : list RawItem :=
  fold_left (push_capped thingiverseItem) cards [].

Definition printablesItems (articles : list PrintablesArticle) : list RawItem :=
  fold_left (push_capped printablesItem) articles [].

(** A link of the MakerWorld page that passed the filter on its [href]. *)
Record MakerWorldLink := {
  mw_href : string;
  mw_img_alt : option string;
  mw_h3_text : option string;
  mw_title_attr : option string;
  mw_text : option string;
  mw_img_src : option string;
  mw_img_data_src : option string;
  mw_author_text : option string;
  mw_likes : Z;
  mw_downloads : Z
}.

Definition makerworldItem (elem : MakerWorldLink) : option RawItem :=
  let link := mw_href elem in
  let title :=
    first_truthy [mw_img_alt elem; mw_h3_text elem; mw_title_attr elem; mw_text elem] in
  let thumbnail := first_truthy [mw_img_src elem; mw_img_data_src elem] in
  match title with
  | Some title =>
      if negb (String.eqb link "")
      then Some {| item_title := title;
                   item_link := absolute "https://makerworld.com" link;
                   item_thumbnail := or_default thumbnail "";
                   item_author := or_default (mw_author_text elem) "Unknown";
                   item_likes := mw_likes elem;
                   item_downloads := mw_downloads elem |}
      else None
  | None => None
  end.

(** The body of the [forEach] of [searchMakerWorld]: the items so far and
    the set [seenUrls]. A link whose [href] was seen is skipped; otherwise
    the [href] is marked as seen before the title is looked at. *)
Definition makerworld_step (acc : list RawItem * gset string) (elem : MakerWorldLink)
  : list RawItem * gset string :=
  let '(items, seenUrls) := acc in
  if (10 <=? length items)%nat then acc
  else if bool_decide (mw_href elem ∈ seenUrls) then acc
  else match makerworldItem elem with
       | Some it => ((items ++ [it])%list, {[mw_href elem]} ∪ seenUrls)
       | None => (items, {[mw_href elem]} ∪ seenUrls)
       end.

Definition makerworldItems (elems : list MakerWorldLink) : list RawItem :=
  (fold_left makerworld_step elems ([], ∅)).1.

(** The links of a page without those whose [href] is in [seen] or occurred
    earlier in the page. *)
Fixpoint first_occurrences (seen : gset string) (elems : list MakerWorldLink)
  : list MakerWorldLink :=
  match elems with
  | [] => []
  | elem :: rest =>
      if bool_decide (mw_href elem ∈ seen) then first_occurrences seen rest
      else elem :: first_occurrences ({[mw_href elem]} ∪ seen) rest
  end.

(** The scraper runs in which the three pages were read without a throw. *)
Definition pages_world (cards : list ThingCard) (articles : list PrintablesArticle)
  (elems : list MakerWorldLink) : Source -> AdapterRun :=
  fun s => match s with
           | Thingiverse => scraped (thingiverseItems cards)
           | Printables => scraped (printablesItems articles)
           | MakerWorld => scraped (makerworldItems elems)
           end.

(** An item as the loops build it: a title, an absolute link and an author. *)
Definition item_complete (it : RawItem) : Prop :=
  item_title it <> "" /\
  String.prefix "http" (item_link it) = true /\
  item_author it <> "".

(** The [href] of a link is relative to the site. *)
Definition relative_href (elem : MakerWorldLink) : Prop :=
  String.prefix "http" (mw_href elem) = false.

(** A link of the MakerWorld page with a picture and no text, and a link to
    the same model with its name. *)
Definition picture_link : MakerWorldLink :=
  {| mw_href := "/en/models/42"; mw_img_alt := Some ""; mw_h3_text := None;
     mw_title_attr := None; mw_text := Some "";
     mw_img_src := Some "https://img/42.png"; mw_img_data_src := None;
     mw_author_text := None; mw_likes := 0; mw_downloads := 0 |}.

Definition name_link : MakerWorldLink :=
  {| mw_href := "/en/models/42"; mw_img_alt := None; mw_h3_text := Some "Cable clip";
     mw_title_attr := None; mw_text := Some "Cable clip";
     mw_img_src := None; mw_img_data_src := None;
     mw_author_text := Some "ann"; mw_likes := 12; mw_downloads := 30 |}.

Definition other_link : MakerWorldLink :=
  {| mw_href := "/en/models/7"; mw_img_alt := Some "Hook"; mw_h3_text := None;
     mw_title_attr := None; mw_text := None;
     mw_img_src := None; mw_img_data_src := Some "https://img/7.png";
     mw_author_text := None; mw_likes := 3; mw_downloads := 4 |}.

(** ** The page ([App.jsx]) *)

(** One step of the [reduce] that builds [groupedResults]: the listing goes
    to the end of the group of its [source], in a new group at the end when
    there is none. The groups are in the order [Object.entries] gives them,
    that of their creation; this holds for keys that are not numerals nor
    names of properties of [Object.prototype], as the tags of the three
    platforms are. *)
Fixpoint group_push (acc : list (string * list Listing)) (result : Listing)
  : list (string * list Listing) :=
  match acc with
  | [] => [(source result, [result])]
  | (k, l) :: rest =>
      if String.eqb k (source result)
      then (k, (l ++ [result])%list) :: rest
      else (k, l) :: group_push rest result
  end.

Definition groupedResults (results : list Listing) : list (string * list Listing) :=
  fold_left group_push results [].

(** [getSourceName]: [names[source] || source], for a [source] that is no
    name of a property of [Object.prototype]. *)
Definition getSourceName (source : string) : string :=
  if String.eqb source "printables" then "Printables"
  else if String.eqb source "thingiverse" then "Thingiverse"
  else if String.eqb source "makerworld" then "MakerWorld"
  else source.

(** The rows the page shows: for each group the name in the heading, the
    number in brackets after it, and the cards. *)
Definition source_rows (results : list Listing) : list (string * nat * list Listing) :=
  map (fun g => (getSourceName g.1, length g.2, g.2)) (groupedResults results).





(** The keys of the groups. *)
Definition group_keys (groups : list (string * list Listing)) : list string :=
  map fst groups.


(** The groups of a response of the server: one for each platform that has
    listings, in the order of the platforms. *)
Definition platform_groups (rs : list Listing) : list (string * list Listing) :=
  flat_map (fun s => match by_source s rs with
                     | [] => []
                     | l => [(source_tag s, l)]
                     end) all_sources.



(** The rows for a response: one for each platform whose count is not 0, in
    the order of the platforms, with the name of the platform, its count and
    its listings. *)
Definition counted_rows (body : Response) : list (string * nat * list Listing) :=
  flat_map (fun s => if (count_of s (sources body) =? 0)%nat then []
                     else [(getSourceName (source_tag s), count_of s (sources body),
                            by_source s (results body))]) all_sources.

(** ** The health endpoint *)

(** The body of the answer of [/api/health]. *)
Record Health := {
  status : string;
  scrapers : list string;
  browserRunning : bool;
  totalSearches : nat;
  lastUpdate : option Z
}.

(** [MAX(updated_at)]: the latest time of update of a row, [NULL] for an
    empty table. *)
Definition max_updated_at (d : gmap string Row) : option Z :=
  map_fold (fun _ row acc =>
              Some match acc with
                   | Some m => Z.max (updated_at row) m
                   | None => updated_at row
                   end) None d.

(** The handler of [/api/health], when its statement runs without a throw;
    [browser] tells whether the variable [browser] holds a browser. *)
Definition health (browser : bool) (st : State) : Health :=
  {| status := "ok";
     scrapers := ["thingiverse"; "printables"; "makerworld"];
     browserRunning := browser;
     totalSearches := size (db st);
     lastUpdate := max_updated_at (db st) |}.

(** * Properties *)

(** ** Tags and the filter by source *)

Lemma source_tag_inj s1 s2 : source_tag s1 = source_tag s2 -> s1 = s2.
Proof. destruct s1, s2; simpl; intros H; try reflexivity; discriminate H. Qed.

Lemma tagged_formatResults s items : tagged s (formatResults s items).
Proof.
  unfold tagged, formatResults. induction items as [|i items IH]; simpl.
  - constructor.
  - constructor; [reflexivity | exact IH].
Qed.

Lemma tagged_by_source s l : tagged s (by_source s l).
Proof.
  unfold tagged, by_source. induction l as [|r l IH]; simpl.
  - constructor.
  - destruct (String.eqb (source r) (source_tag s)) eqn:E; [|exact IH].
    constructor; [now apply String.eqb_eq | exact IH].
Qed.

Lemma by_source_tagged_same s l : tagged s l -> by_source s l = l.
Proof.
  unfold tagged, by_source. induction 1 as [|r l Hr _ IH]; simpl.
  - reflexivity.
  - rewrite Hr, String.eqb_refl, IH. reflexivity.
Qed.

Lemma by_source_tagged_other s s' l : s <> s' -> tagged s' l -> by_source s l = [].
Proof.
  intros Hne. unfold tagged, by_source. induction 1 as [|r l Hr _ IH]; simpl.
  - reflexivity.
  - rewrite Hr. destruct (String.eqb (source_tag s') (source_tag s)) eqn:E.
    + apply String.eqb_eq, source_tag_inj in E. congruence.
    + exact IH.
Qed.

Lemma by_source_app s l1 l2 :
  by_source s (l1 ++ l2)%list = (by_source s l1 ++ by_source s l2)%list.
Proof. unfold by_source. apply List.filter_app. Qed.

(** The merge of three lists, each tagged with its platform, splits back. *)
Lemma by_source_merge s lt lp lm :
  tagged Thingiverse lt -> tagged Printables lp -> tagged MakerWorld lm ->
  by_source s (lt ++ lp ++ lm)%list =
  match s with Thingiverse => lt | Printables => lp | MakerWorld => lm end.
Proof.
  intros Ht Hp Hm. rewrite !by_source_app.
  destruct s.
  - rewrite (by_source_tagged_same _ _ Ht).
    rewrite (by_source_tagged_other Thingiverse Printables lp), (by_source_tagged_other Thingiverse MakerWorld lm) by (congruence || assumption).
    now rewrite !app_nil_r.
  - rewrite (by_source_tagged_same _ _ Hp).
    rewrite (by_source_tagged_other Printables Thingiverse lt), (by_source_tagged_other Printables MakerWorld lm) by (congruence || assumption).
    now rewrite app_nil_r.
  - rewrite (by_source_tagged_same _ _ Hm).
    rewrite (by_source_tagged_other MakerWorld Thingiverse lt), (by_source_tagged_other MakerWorld Printables lp) by (congruence || assumption).
    reflexivity.
Qed.

(** ** Promises and what they settle to *)

Lemma tagged_search s r : tagged s (value_or_empty (search s r)).
Proof.
  unfold search. destruct (close_throws r); simpl; [constructor|].
  destruct (scrape r); [apply tagged_formatResults | constructor].
Qed.

Lemma tagged_settle s w p : slot_of s p -> tagged s (value_or_empty (settle w p)).
Proof.
  destruct p as [s'|value]; simpl.
  - intros ->. apply tagged_search.
  - trivial.
Qed.

Lemma slot_of_refreshed s c : slot_of s (refreshed s c).
Proof.
  unfold refreshed. destruct (count_of s (sources c) =? 0)%nat; simpl.
  - reflexivity.
  - apply tagged_by_source.
Qed.

(** ** The two turns, case by case *)

Lemma search_finish_eq p settled t st :
  search_finish p settled t st =
  (Json (fresh_response (pending_query p) (value_or_empty settled.1.1)
           (value_or_empty settled.1.2) (value_or_empty settled.2)),
   written t (pending_query p)
     (fresh_response (pending_query p) (value_or_empty settled.1.1)
        (value_or_empty settled.1.2) (value_or_empty settled.2)) st,
   [CacheSet (cacheKey (pending_query p)); DbUpsert (pending_query p)]).
Proof.
  destruct p as [b q ps], settled as [[s0 s1] s2].
  unfold search_finish, bind, cache_set, cacheSearch, ret, written, fresh_response.
  destruct b; cbn [branch pending_query fst snd]; destruct (db_ok t); reflexivity.
Qed.

Lemma search_start_absent t st :
  search_start None t st = (Replied (Status400 "Query parameter required"), st, []).
Proof. reflexivity. Qed.

Lemma search_start_empty t st :
  search_start (Some "") t st = (Replied (Status400 "Query parameter required"), st, []).
Proof. reflexivity. Qed.

Lemma search_start_fresh q t st c :
  q <> "" -> db_read t st q = Some c -> needsRefresh c = false ->
  search_start (Some q) t st = (Replied (Json c), st, [DbGet q]).
Proof.
  intros Hq Hc Hn. destruct q as [|a q]; [congruence|].
  unfold search_start, bind, getCachedSearch, ret. rewrite Hc, Hn. reflexivity.
Qed.

Lemma search_start_partial q t st c :
  q <> "" -> db_read t st q = Some c -> needsRefresh c = true ->
  search_start (Some q) t st =
  (Awaiting {| branch := PartialRefresh; pending_query := q;
               searchPromises := (refreshed Thingiverse c, refreshed Printables c,
                                  refreshed MakerWorld c) |},
   st, DbGet q :: map (fun s => Invoke s q) (zero_sources c)).
Proof.
  intros Hq Hc Hn. destruct q as [|a q]; [congruence|].
  unfold search_start, bind, getCachedSearch, ret. rewrite Hc, Hn.
  unfold refresh, refreshed, zero_sources, all_sources, invoke, ret. cbn [List.filter count_of].
  destruct (thingiverse (sources c) =? 0)%nat, (printables (sources c) =? 0)%nat,
    (makerworld (sources c) =? 0)%nat; reflexivity.
Qed.

Lemma search_start_memory q t st r :
  q <> "" -> db_read t st q = None ->
  cache_lookup (now t) (cache st) (cacheKey q) = Some r ->
  search_start (Some q) t st = (Replied (Json r), st, [DbGet q; CacheGet (cacheKey q)]).
Proof.
  intros Hq Hc Hm. destruct q as [|a q]; [congruence|].
  unfold search_start, bind, getCachedSearch, cache_get, ret. rewrite Hc, Hm. reflexivity.
Qed.

Lemma search_start_full q t st :
  q <> "" -> db_read t st q = None ->
  cache_lookup (now t) (cache st) (cacheKey q) = None ->
  search_start (Some q) t st =
  (Awaiting {| branch := FullFetch; pending_query := q;
               searchPromises := (Call Thingiverse, Call Printables, Call MakerWorld) |},
   st, [DbGet q; CacheGet (cacheKey q); Invoke Thingiverse q; Invoke Printables q;
        Invoke MakerWorld q]).
Proof.
  intros Hq Hc Hm. destruct q as [|a q]; [congruence|].
  unfold search_start, bind, getCachedSearch, cache_get, invoke, ret. rewrite Hc, Hm.
  reflexivity.
Qed.

(** The first turn never writes. *)
Lemma search_start_state q t st : (search_start q t st).1.2 = st.
Proof.
  destruct q as [q|]; [|reflexivity].
  destruct (decide (q = "")) as [->|Hq]; [reflexivity|].
  destruct (db_read t st q) as [c|] eqn:Hc.
  - destruct (needsRefresh c) eqn:Hn.
    + now rewrite (search_start_partial q t st c).
    + now rewrite (search_start_fresh q t st c).
  - destruct (cache_lookup (now t) (cache st) (cacheKey q)) as [r|] eqn:Hm.
    + now rewrite (search_start_memory q t st r).
    + now rewrite (search_start_full q t st).
Qed.

(** Whatever the first turn suspends has its promises in their slots. *)
Lemma search_start_pending q t st p :
  (search_start q t st).1.1 = Awaiting p -> wf_pending p.
Proof.
  destruct q as [q|]; [|discriminate].
  destruct (decide (q = "")) as [->|Hq]; [discriminate|].
  destruct (db_read t st q) as [c|] eqn:Hc.
  - destruct (needsRefresh c) eqn:Hn.
    + rewrite (search_start_partial q t st c) by assumption. simpl.
      intros [= <-]. repeat split; apply slot_of_refreshed.
    + rewrite (search_start_fresh q t st c) by assumption. discriminate.
  - destruct (cache_lookup (now t) (cache st) (cacheKey q)) as [r|] eqn:Hm.
    + rewrite (search_start_memory q t st r) by assumption. discriminate.
    + rewrite (search_start_full q t st) by assumption. simpl.
      intros [= <-]. repeat split; reflexivity.
Qed.

(** ** Counts agree with listings *)

Lemma fresh_response_consistent q lt lp lm :
  tagged Thingiverse lt -> tagged Printables lp -> tagged MakerWorld lm ->
  consistent (fresh_response q lt lp lm).
Proof.
  intros Ht Hp Hm. split; [reflexivity|].
  intros s. cbn [fresh_response results sources].
  rewrite by_source_merge by assumption. destruct s; reflexivity.
Qed.

Lemma row_response_consistent q row :
  row_consistent row -> consistent (row_response q row).
Proof. intros H. split; [reflexivity | exact H]. Qed.

Lemma upsert_lookup t q rs c (d : gmap string Row) :
  exists row, upsert t q rs c d !! q = Some row /\
              row_results row = rs /\ row_sources row = c /\ updated_at row = t.
Proof.
  unfold upsert. destruct (d !! q) as [old|]; rewrite lookup_insert_eq; eauto.
Qed.

Lemma upsert_lookup_ne t q q' rs c (d : gmap string Row) :
  q <> q' -> upsert t q rs c d !! q' = d !! q'.
Proof.
  intros Hne. unfold upsert. destruct (d !! q) as [old|]; now rewrite lookup_insert_ne.
Qed.

Lemma written_wf t q r st : wf_state st -> consistent r -> wf_state (written t q r st).
Proof.
  intros [Hc Hd] Hr. split; cbn [written cache db].
  - intros k x. destruct (decide (cacheKey q = k)) as [<-|Hne].
    + rewrite lookup_insert_eq. intros [= <-]. exact Hr.
    + rewrite lookup_insert_ne by assumption. apply Hc.
  - intros q' row. destruct (db_ok t); [|apply Hd].
    destruct (decide (q = q')) as [<-|Hne].
    + destruct (upsert_lookup (now t) q (results r) (sources r) (db st))
        as (row' & Hrow & Hrs & Hsrc & _).
      rewrite Hrow. intros [= <-]. intros s. rewrite Hrs, Hsrc. apply Hr.
    + rewrite upsert_lookup_ne by assumption. apply Hd.
Qed.

Lemma search_finish_consistent p w t st body :
  wf_pending p ->
  (search_finish p (allSettled w (searchPromises p)) t st).1.1 = Json body ->
  consistent body.
Proof.
  intros (H0 & H1 & H2). rewrite search_finish_eq. cbn [fst]. intros [= <-].
  apply fresh_response_consistent; unfold allSettled; cbn [fst snd];
    now apply tagged_settle.
Qed.

Lemma search_finish_wf p w t st :
  wf_pending p -> wf_state st ->
  wf_state (search_finish p (allSettled w (searchPromises p)) t st).1.2.
Proof.
  intros Hp Hst. pose proof (search_finish_consistent p w t st) as Hb.
  rewrite search_finish_eq in *. cbn [fst snd] in *.
  apply written_wf; [assumption|]. now apply Hb.
Qed.

Lemma db_read_consistent t st q c :
  wf_state st -> db_read t st q = Some c -> consistent c.
Proof.
  intros [_ Hd]. unfold db_read. destruct (db_ok t); [|discriminate].
  destruct (db st !! q) as [row|] eqn:Hrow; [|discriminate].
  intros [= <-]. apply row_response_consistent. now apply (Hd q).
Qed.

Lemma cache_lookup_consistent t st k r :
  wf_state st -> cache_lookup t (cache st) k = Some r -> consistent r.
Proof.
  intros [Hc _]. unfold cache_lookup.
  destruct (cache st !! k) as [[expires v]|] eqn:Hk; [|discriminate].
  destruct (expires <? t)%Z; [discriminate|]. intros [= <-]. apply (Hc k _ Hk).
Qed.

Lemma search_start_consistent q t st body :
  wf_state st -> (search_start q t st).1.1 = Replied (Json body) -> consistent body.
Proof.
  intros Hst. destruct q as [q|]; [|discriminate].
  destruct (decide (q = "")) as [->|Hq]; [discriminate|].
  destruct (db_read t st q) as [c|] eqn:Hc.
  - destruct (needsRefresh c) eqn:Hn.
    + rewrite (search_start_partial q t st c) by assumption. discriminate.
    + rewrite (search_start_fresh q t st c) by assumption.
      intros [= <-]. now apply (db_read_consistent t st q).
  - destruct (cache_lookup (now t) (cache st) (cacheKey q)) as [r|] eqn:Hm.
    + rewrite (search_start_memory q t st r) by assumption.
      intros [= <-]. now apply (cache_lookup_consistent (now t) st (cacheKey q)).
    + rewrite (search_start_full q t st) by assumption. discriminate.
Qed.

Lemma boot_wf : wf_sys Loop.boot.
Proof.
  split; [split|]; cbn.
  - intros k x. rewrite lookup_empty. discriminate.
  - intros q row. rewrite lookup_empty. discriminate.
  - constructor.
Qed.

Lemma cleanOldSearches_wf t st :
  wf_state st -> wf_state {| cache := ∅; db := cleanOldSearches t (db st) |}.
Proof.
  intros [_ Hd]. split; cbn.
  - intros k x. rewrite lookup_empty. discriminate.
  - intros q row. unfold cleanOldSearches. rewrite map_lookup_filter_Some.
    intros [Hrow _]. now apply (Hd q).
Qed.

Lemma step_wf a s :
  wf_sys s ->
  wf_sys (Loop.step a s).1.1 /\
  forall body, (Loop.step a s).2 = Some (Json body) -> consistent body.
Proof.
  intros [Hst Hin]. destruct a as [t q|i w t|t]; cbn [Loop.step].
  - pose proof (search_start_state q t (Loop.state s)) as Hsame.
    pose proof (search_start_pending q t (Loop.state s)) as Hpend.
    pose proof (search_start_consistent q t (Loop.state s)) as Hcons.
    destruct (search_start q t (Loop.state s)) as [[started st1] l].
    cbn [fst snd] in *. subst st1. destruct started as [r|p]; cbn [fst snd].
    + split; [split; assumption|]. intros body [= ->]. now apply Hcons.
    + split; [|discriminate]. split; [assumption|]. cbn.
      apply Forall_app. split; [assumption|]. constructor; [now apply Hpend | constructor].
  - destruct (Loop.inflight s !! i) as [p|] eqn:Hp.
    + assert (wf_pending p) as Hwp.
      { eapply Forall_lookup_1; eassumption. }
      pose proof (search_finish_wf p w t (Loop.state s) Hwp Hst) as Hwf.
      pose proof (search_finish_consistent p w t (Loop.state s)) as Hcons.
      destruct (search_finish p (allSettled w (searchPromises p)) t (Loop.state s))
        as [[r st1] l].
      cbn [fst snd] in *. split.
      * split; cbn; [assumption | now apply Forall_delete].
      * intros body [= ->]. now apply Hcons.
    + cbn. split; [split; assumption | discriminate].
  - cbn. split; [|discriminate]. split; cbn; [now apply cleanOldSearches_wf | constructor].
Qed.

Lemma run_wf sched : forall s,
  wf_sys s ->
  wf_sys (Loop.run sched s).1.1 /\
  forall body, In (Json body) (Loop.run sched s).2 -> consistent body.
Proof.
  induction sched as [|a rest IH]; intros s Hs; cbn [Loop.run].
  - split; [assumption | intros body []].
  - destruct (step_wf a s Hs) as [Hs1 Hr1].
    destruct (Loop.step a s) as [[s1 l1] r1]. cbn [fst snd] in *.
    destruct (IH s1 Hs1) as [Hs2 Hr2].
    destruct (Loop.run rest s1) as [[s2 l2] r2]. cbn [fst snd] in *.
    split; [assumption|]. intros body Hin. apply in_app_or in Hin as [Hin|Hin].
    + destruct r1 as [r|]; cbn in Hin; [|contradiction].
      destruct Hin as [->|[]]. now apply Hr1.
    + now apply Hr2.
Qed.

Lemma reachable_wf s : Loop.reachable s -> wf_sys s.
Proof. intros [sched <-]. apply run_wf, boot_wf. Qed.

(** ** A request served in one go, case by case *)

Lemma handle_absent e st :
  handle e st None = (Status400 "Query parameter required", st, []).
Proof. reflexivity. Qed.

Lemma handle_empty e st :
  handle e st (Some "") = (Status400 "Query parameter required", st, []).
Proof. reflexivity. Qed.

Lemma handle_fresh e st q c :
  q <> "" -> db_read (arrival e) st q = Some c -> needsRefresh c = false ->
  handle e st (Some q) = (Json c, st, [DbGet q]).
Proof.
  intros Hq Hc Hn. unfold handle. now rewrite (search_start_fresh q _ st c).
Qed.

Lemma handle_memory e st q r :
  q <> "" -> db_read (arrival e) st q = None ->
  cache_lookup (now (arrival e)) (cache st) (cacheKey q) = Some r ->
  handle e st (Some q) = (Json r, st, [DbGet q; CacheGet (cacheKey q)]).
Proof.
  intros Hq Hc Hm. unfold handle. now rewrite (search_start_memory q _ st r).
Qed.

Lemma handle_partial e st q c :
  q <> "" -> db_read (arrival e) st q = Some c -> needsRefresh c = true ->
  handle e st (Some q) =
  (Json (merged (world e) q (refreshed_all c)),
   written (completion e) q (merged (world e) q (refreshed_all c)) st,
   (DbGet q :: map (fun s => Invoke s q) (zero_sources c)
      ++ [CacheSet (cacheKey q); DbUpsert q])%list).
Proof.
  intros Hq Hc Hn. unfold handle. rewrite (search_start_partial q _ st c) by assumption.
  rewrite search_finish_eq. reflexivity.
Qed.

Lemma handle_full e st q :
  q <> "" -> db_read (arrival e) st q = None ->
  cache_lookup (now (arrival e)) (cache st) (cacheKey q) = None ->
  handle e st (Some q) =
  (Json (merged (world e) q call_all),
   written (completion e) q (merged (world e) q call_all) st,
   [DbGet q; CacheGet (cacheKey q); Invoke Thingiverse q; Invoke Printables q;
    Invoke MakerWorld q; CacheSet (cacheKey q); DbUpsert q]).
Proof.
  intros Hq Hc Hm. unfold handle. rewrite (search_start_full q _ st) by assumption.
  rewrite search_finish_eq. reflexivity.
Qed.

Lemma invoked_app l1 l2 : invoked (l1 ++ l2)%list = (invoked l1 ++ invoked l2)%list.
Proof. unfold invoked. apply flat_map_app. Qed.

Lemma invoked_calls q l : invoked (map (fun s => Invoke s q) l) = l.
Proof. induction l as [|s l IH]; [reflexivity|]. cbn. now f_equal. Qed.

Lemma invoked_partial q zs :
  invoked (DbGet q :: map (fun s => Invoke s q) zs
             ++ [CacheSet (cacheKey q); DbUpsert q])%list = zs.
Proof.
  change (DbGet q :: map (fun s => Invoke s q) zs ++ [CacheSet (cacheKey q); DbUpsert q])%list
    with ([DbGet q] ++ map (fun s => Invoke s q) zs ++ [CacheSet (cacheKey q); DbUpsert q])%list.
  rewrite !invoked_app, invoked_calls. cbn. apply app_nil_r.
Qed.

(** The part of a merged response that belongs to one platform. *)
Lemma merged_component w q ps s :
  slot_of Thingiverse ps.1.1 -> slot_of Printables ps.1.2 -> slot_of MakerWorld ps.2 ->
  by_source s (results (merged w q ps)) =
    value_or_empty (settle w match s with
                             | Thingiverse => ps.1.1
                             | Printables => ps.1.2
                             | MakerWorld => ps.2
                             end) /\
  count_of s (sources (merged w q ps)) = length (by_source s (results (merged w q ps))).
Proof.
  intros H0 H1 H2. unfold merged. cbn [fresh_response results sources].
  rewrite by_source_merge by now apply tagged_settle.
  destruct s; split; reflexivity.
Qed.

Lemma needsRefresh_true c :
  needsRefresh c = true <-> exists s, count_of s (sources c) = 0.
Proof.
  unfold needsRefresh. rewrite !orb_true_iff, !Nat.eqb_eq. split.
  - intros [[H|H]|H]; [exists Thingiverse | exists Printables | exists MakerWorld]; exact H.
  - intros [[] H]; cbn in H; tauto.
Qed.

Lemma needsRefresh_false c :
  needsRefresh c = false <-> forall s, 0 < count_of s (sources c).
Proof.
  unfold needsRefresh. rewrite !orb_false_iff, !Nat.eqb_neq. split.
  - intros [[H0 H1] H2] []; cbn; lia.
  - intros H. pose proof (H Thingiverse). pose proof (H Printables).
    pose proof (H MakerWorld). cbn in *. lia.
Qed.

Lemma db_read_row t st q row :
  db_ok t = true -> db st !! q = Some row -> db_read t st q = Some (row_response q row).
Proof. intros Hok Hrow. unfold db_read. now rewrite Hok, Hrow. Qed.

(** ** Cached records and the order of the caches *)

(** C7. Every response the server sends, in any schedule of arrivals,
    completions and restarts from an empty cache, has [total] equal to the
    number of its listings and, for each platform, a count equal to the
    number of its listings whose [source] is that platform. *)
Theorem envelope_counts_match (sched : list Loop.Action) (body : Response) :
  In (Json body) (Loop.run sched Loop.boot).2 ->
  total body = length (results body) /\
  forall s, count_of s (sources body) = length (by_source s (results body)).
Proof.
  intros Hin. exact (proj2 (run_wf sched Loop.boot boot_wf) body Hin).
Qed.

Lemma envelope_counts_match_witness :
  In (Json (merged printables_down "phone holder" call_all))
     (Loop.run [Loop.Arrive (tick 0) (Some "phone holder");
                Loop.Complete 0 printables_down (tick 5)] Loop.boot).2 /\
  (total (merged printables_down "phone holder" call_all) =
     length (results (merged printables_down "phone holder" call_all)) /\
   forall s, count_of s (sources (merged printables_down "phone holder" call_all)) =
             length (by_source s (results (merged printables_down "phone holder" call_all)))).
Proof.
  assert (In (Json (merged printables_down "phone holder" call_all))
            (Loop.run [Loop.Arrive (tick 0) (Some "phone holder");
                       Loop.Complete 0 printables_down (tick 5)] Loop.boot).2) as Hin.
  { vm_compute. left. reflexivity. }
  split; [exact Hin|].
  exact (envelope_counts_match _ _ Hin).
Defined.

(** C9. A request without a query, or with the empty query, is answered with
    the 400 error and nothing else happens: no cache is read or written and
    no scraper is invoked. *)
Theorem missing_query_rejected (e : Env) (st : State) :
  handle e st None = (Status400 "Query parameter required", st, []) /\
  handle e st (Some "") = (Status400 "Query parameter required", st, []).
Proof. split; [apply handle_absent | apply handle_empty]. Qed.

(** C8. When the table holds a record of the query with every count
    positive, the request invokes no scraper and changes nothing, and the
    [query], [results], [sources] and [total] it returns are those of the
    stored record, whatever the age of the record. *)
Theorem fresh_hit_no_fetch (e : Env) (st : State) (q : string) (row : Row) :
  q <> "" ->
  db_ok (arrival e) = true ->
  db st !! q = Some row ->
  (forall s, 0 < count_of s (row_sources row)) ->
  exists body,
    handle e st (Some q) = (Json body, st, [DbGet q]) /\
    invoked [DbGet q] = [] /\
    query body = q /\
    results body = row_results row /\
    sources body = row_sources row /\
    total body = length (row_results row).
Proof.
  intros Hq Hok Hrow Hpos. exists (row_response q row).
  split; [|repeat split].
  apply handle_fresh; [assumption | now apply db_read_row |].
  apply needsRefresh_false. exact Hpos.
Qed.

Lemma fresh_hit_no_fetch_witness :
  "phone holder" <> "" /\
  db_ok (arrival (env_at 10 all_down)) = true /\
  db (Loop.state sys_all_found) !! "phone holder" = Some row_all_found /\
  (forall s, 0 < count_of s (row_sources row_all_found)) /\
  exists body,
    handle (env_at 10 all_down) (Loop.state sys_all_found) (Some "phone holder") =
      (Json body, Loop.state sys_all_found, [DbGet "phone holder"]) /\
    invoked [DbGet "phone holder"] = [] /\
    query body = "phone holder" /\
    results body = row_results row_all_found /\
    sources body = row_sources row_all_found /\
    total body = length (row_results row_all_found).
Proof.
  assert ("phone holder" <> "") as Hq by discriminate.
  assert (db (Loop.state sys_all_found) !! "phone holder" = Some row_all_found) as Hrow
    by (vm_compute; reflexivity).
  assert (forall s, 0 < count_of s (row_sources row_all_found)) as Hpos
    by (intros []; vm_compute; lia).
  repeat (split; [first [exact Hq | reflexivity | exact Hrow | exact Hpos]|]).
  exact (fresh_hit_no_fetch (env_at 10 all_down) (Loop.state sys_all_found)
           "phone holder" row_all_found Hq eq_refl Hrow Hpos).
Defined.

(** X20. After a search that found listings on every platform and stored
    them, a second request for the same query answers with the same [query],
    [total], [results] and [sources], and the scrapers are not invoked. *)
Lemma second_request_same_envelope e1 e2 st q body1 st1 l1 :
  q <> "" ->
  handle e1 st (Some q) = (Json body1, st1, l1) ->
  invoked l1 <> [] ->
  db_ok (completion e1) = true ->
  db_ok (arrival e2) = true ->
  (forall s, 0 < count_of s (sources body1)) ->
  exists body2,
    handle e2 st1 (Some q) = (Json body2, st1, [DbGet q]) /\
    query body2 = query body1 /\ total body2 = total body1 /\
    results body2 = results body1 /\ sources body2 = sources body1.
Proof.
  intros Hq H1 Hinv Hw Hr Hpos.
  assert (exists row, db st1 !! q = Some row /\ row_results row = results body1 /\
                      row_sources row = sources body1 /\ query body1 = q /\
                      total body1 = length (results body1)) as (row & Hrow & Hrs & Hsrc & Hqb & Htot).
  { destruct (db_read (arrival e1) st q) as [c|] eqn:Hc.
    - destruct (needsRefresh c) eqn:Hn.
      + rewrite (handle_partial e1 st q c) in H1 by assumption.
        injection H1 as <- <- <-. unfold written. cbn [db]. rewrite Hw.
        destruct (upsert_lookup (now (completion e1)) q
                    (results (merged (world e1) q (refreshed_all c)))
                    (sources (merged (world e1) q (refreshed_all c))) (db st))
          as (row & Hrow & Hrs & Hsrc & _).
        exists row. repeat split; assumption.
      + rewrite (handle_fresh e1 st q c) in H1 by assumption.
        injection H1 as <- <- <-. now contradiction Hinv.
    - destruct (cache_lookup (now (arrival e1)) (cache st) (cacheKey q)) as [r|] eqn:Hm.
      + rewrite (handle_memory e1 st q r) in H1 by assumption.
        injection H1 as <- <- <-. now contradiction Hinv.
      + rewrite (handle_full e1 st q) in H1 by assumption.
        injection H1 as <- <- <-. unfold written. cbn [db]. rewrite Hw.
        destruct (upsert_lookup (now (completion e1)) q
                    (results (merged (world e1) q call_all))
                    (sources (merged (world e1) q call_all)) (db st))
          as (row & Hrow & Hrs & Hsrc & _).
        exists row. repeat split; assumption. }
  exists (row_response q row). split.
  - apply handle_fresh; [assumption | now apply db_read_row |].
    apply needsRefresh_false. cbn [row_response sources]. now rewrite Hsrc.
  - cbn [row_response query total results sources]. rewrite Hrs, Hsrc, Htot, Hqb. auto.
Qed.

(** C3, as stated, fails. After a search during which Printables was down,
    the memory cache holds an unexpired entry for the query, yet the next
    request reads the table and invokes a scraper; and after a restart, a
    request answered from a table record with every count positive leaves
    the memory cache without an entry for the query. *)
Lemma memory_cache_not_consulted_first :
  cache_lookup 10 (cache (Loop.state sys_printables_missing)) (cacheKey "phone holder")
    = Some (merged printables_down "phone holder" call_all) /\
  (handle (env_at 10 two_each) (Loop.state sys_printables_missing)
     (Some "phone holder")).2
    = [DbGet "phone holder"; Invoke Printables "phone holder";
       CacheSet "search_phone holder"; DbUpsert "phone holder"] /\
  (handle (env_at 70 two_each) (Loop.state sys_restarted) (Some "phone holder")).1.1
    = Json (row_response "phone holder" row_all_found) /\
  cache (handle (env_at 70 two_each) (Loop.state sys_restarted)
           (Some "phone holder")).1.2 !! cacheKey "phone holder" = None.
Proof. repeat split; vm_compute; reflexivity. Qed.

(** C3, amended. Every request with a query reads the table first. A record
    there with every count positive is returned at once: nothing else is
    read, no scraper is invoked and neither cache is written. The memory
    cache is read only when the table gave nothing, with the key of the
    query, and an unexpired entry is then returned without fetching or
    writing. *)
Theorem table_consulted_first (e : Env) (st : State) (q : string) :
  q <> "" ->
  exists reply st' l,
    handle e st (Some q) = (reply, st', DbGet q :: l) /\
    (forall c, db_read (arrival e) st q = Some c ->
               (forall s, 0 < count_of s (sources c)) ->
               reply = Json c /\ st' = st /\ l = []) /\
    (forall k, In (CacheGet k) l ->
               k = cacheKey q /\ db_read (arrival e) st q = None) /\
    (forall r, db_read (arrival e) st q = None ->
               cache_lookup (now (arrival e)) (cache st) (cacheKey q) = Some r ->
               reply = Json r /\ st' = st /\ l = [CacheGet (cacheKey q)]).
Proof.
  intros Hq. destruct (db_read (arrival e) st q) as [c|] eqn:Hc.
  - destruct (needsRefresh c) eqn:Hn.
    + rewrite (handle_partial e st q c) by assumption.
      eexists _, _, _. split; [reflexivity|]. split; [|split].
      * intros c' [= <-] Hpos. apply needsRefresh_false in Hpos. congruence.
      * intros k Hin. apply in_app_or in Hin as [Hin|Hin].
        -- apply in_map_iff in Hin as (s & Hs & _). discriminate Hs.
        -- destruct Hin as [Hin|[Hin|[]]]; discriminate Hin.
      * discriminate.
    + rewrite (handle_fresh e st q c) by assumption.
      eexists _, _, _. split; [reflexivity|]. split; [|split].
      * intros c' [= <-] _. auto.
      * intros k [].
      * discriminate.
  - destruct (cache_lookup (now (arrival e)) (cache st) (cacheKey q)) as [r|] eqn:Hm.
    + rewrite (handle_memory e st q r) by assumption.
      eexists _, _, _. split; [reflexivity|]. split; [|split].
      * discriminate.
      * intros k [Hin|[]]. injection Hin as <-. auto.
      * intros r' _ [= <-]. auto.
    + rewrite (handle_full e st q) by assumption.
      eexists _, _, _. split; [reflexivity|]. split; [|split].
      * discriminate.
      * intros k [Hin|Hin]; [injection Hin as <-; auto|].
        repeat (destruct Hin as [Hin|Hin]; [discriminate Hin|]). destruct Hin.
      * intros r' _ Hr. discriminate Hr.
Qed.

Lemma table_consulted_first_witness :
  "phone holder" <> "" /\
  exists reply st' l,
    handle (env_at 10 two_each) (Loop.state sys_all_found) (Some "phone holder")
      = (reply, st', DbGet "phone holder" :: l) /\
    (forall c, db_read (arrival (env_at 10 two_each)) (Loop.state sys_all_found)
                 "phone holder" = Some c ->
               (forall s, 0 < count_of s (sources c)) ->
               reply = Json c /\ st' = Loop.state sys_all_found /\ l = []) /\
    (forall k, In (CacheGet k) l ->
               k = cacheKey "phone holder" /\
               db_read (arrival (env_at 10 two_each)) (Loop.state sys_all_found)
                 "phone holder" = None) /\
    (forall r, db_read (arrival (env_at 10 two_each)) (Loop.state sys_all_found)
                 "phone holder" = None ->
               cache_lookup (now (arrival (env_at 10 two_each)))
                 (cache (Loop.state sys_all_found)) (cacheKey "phone holder") = Some r ->
               reply = Json r /\ st' = Loop.state sys_all_found /\
               l = [CacheGet (cacheKey "phone holder")]).
Proof.
  assert ("phone holder" <> "") as Hq by discriminate.
  split; [exact Hq|].
  exact (table_consulted_first (env_at 10 two_each) (Loop.state sys_all_found)
           "phone holder" Hq).
Defined.

(** C1. In any state the server can reach, when the table holds a record of
    the query in which some count is 0, the request invokes the scrapers of
    exactly the platforms whose count is 0. For a platform whose count is
    positive, the listings of that platform in the response are those of the
    record and its count is the one of the record; for a platform searched
    again, listings and count are those of the new search. The response is
    what both caches then hold. *)
Theorem partial_refresh_correct (s : Loop.Sys) (e : Env) (q : string) (row : Row) :
  Loop.reachable s ->
  q <> "" ->
  db_ok (arrival e) = true ->
  db (Loop.state s) !! q = Some row ->
  (exists src, count_of src (row_sources row) = 0) ->
  exists body st' l,
    handle e (Loop.state s) (Some q) = (Json body, st', l) /\
    invoked l =
      List.filter (fun src => (count_of src (row_sources row) =? 0)%nat) all_sources /\
    (forall src, 0 < count_of src (row_sources row) ->
       by_source src (results body) = by_source src (row_results row) /\
       count_of src (sources body) = count_of src (row_sources row)) /\
    (forall src, count_of src (row_sources row) = 0 ->
       by_source src (results body) = value_or_empty (search src (world e src)) /\
       count_of src (sources body) =
         length (value_or_empty (search src (world e src)))) /\
    cache st' !! cacheKey q = Some ((now (completion e) + stdTTL)%Z, body) /\
    (db_ok (completion e) = true ->
       exists row', db st' !! q = Some row' /\
                    row_results row' = results body /\
                    row_sources row' = sources body).
Proof.
  intros Hreach Hq Hok Hrow Hzero.
  pose proof (reachable_wf s Hreach) as [[_ Hdb] _].
  pose proof (Hdb q row Hrow) as Hcons.
  set (c := row_response q row).
  assert (db_read (arrival e) (Loop.state s) q = Some c) as Hc by now apply db_read_row.
  assert (needsRefresh c = true) as Hn by (apply needsRefresh_true; exact Hzero).
  rewrite (handle_partial e (Loop.state s) q c) by assumption.
  eexists _, _, _. split; [reflexivity|].
  assert (forall src,
             by_source src (results (merged (world e) q (refreshed_all c))) =
               value_or_empty (settle (world e) (refreshed src c)) /\
             count_of src (sources (merged (world e) q (refreshed_all c))) =
               length (value_or_empty (settle (world e) (refreshed src c)))) as Hcomp.
  { intros src.
    destruct (merged_component (world e) q (refreshed_all c) src) as [H1 H2];
      try apply slot_of_refreshed.
    rewrite H2, H1. destruct src; split; reflexivity. }
  split; [apply invoked_partial|]. split; [|split; [|split]].
  - intros src Hpos. destruct (Hcomp src) as [H1 H2]. rewrite H1, H2.
    unfold refreshed. cbn [c row_response sources results].
    destruct (Nat.eqb_spec (count_of src (row_sources row)) 0) as [E|E]; [lia|].
    cbn [settle value_or_empty]. split; [reflexivity|]. symmetry. apply Hcons.
  - intros src Hz. destruct (Hcomp src) as [H1 H2]. rewrite H1, H2.
    unfold refreshed. cbn [c row_response sources results]. rewrite Hz.
    cbn [Nat.eqb settle]. split; reflexivity.
  - unfold written. cbn [cache]. apply lookup_insert_eq.
  - intros Hw. unfold written. cbn [db]. rewrite Hw.
    destruct (upsert_lookup (now (completion e)) q
                (results (merged (world e) q (refreshed_all c)))
                (sources (merged (world e) q (refreshed_all c))) (db (Loop.state s)))
      as (row' & Hrow' & Hrs & Hsrc & _).
    exists row'. auto.
Qed.

Lemma partial_refresh_correct_witness :
  Loop.reachable sys_printables_missing /\
  "phone holder" <> "" /\
  db_ok (arrival (env_at 10 two_each)) = true /\
  db (Loop.state sys_printables_missing) !! "phone holder" = Some row_printables_missing /\
  (exists src, count_of src (row_sources row_printables_missing) = 0) /\
  exists body st' l,
    handle (env_at 10 two_each) (Loop.state sys_printables_missing) (Some "phone holder")
      = (Json body, st', l) /\
    invoked l =
      List.filter (fun src => (count_of src (row_sources row_printables_missing) =? 0)%nat)
        all_sources /\
    (forall src, 0 < count_of src (row_sources row_printables_missing) ->
       by_source src (results body) = by_source src (row_results row_printables_missing) /\
       count_of src (sources body) = count_of src (row_sources row_printables_missing)) /\
    (forall src, count_of src (row_sources row_printables_missing) = 0 ->
       by_source src (results body) =
         value_or_empty (search src (world (env_at 10 two_each) src)) /\
       count_of src (sources body) =
         length (value_or_empty (search src (world (env_at 10 two_each) src)))) /\
    cache st' !! cacheKey "phone holder" =
      Some ((now (completion (env_at 10 two_each)) + stdTTL)%Z, body) /\
    (db_ok (completion (env_at 10 two_each)) = true ->
       exists row', db st' !! "phone holder" = Some row' /\
                    row_results row' = results body /\
                    row_sources row' = sources body).
Proof.
  assert (Loop.reachable sys_printables_missing) as Hreach.
  { exists [Loop.Arrive (tick 0) (Some "phone holder");
            Loop.Complete 0 printables_down (tick 5)]. reflexivity. }
  assert ("phone holder" <> "") as Hq by discriminate.
  assert (db (Loop.state sys_printables_missing) !! "phone holder"
          = Some row_printables_missing) as Hrow by (vm_compute; reflexivity).
  assert (exists src, count_of src (row_sources row_printables_missing) = 0) as Hzero
    by (exists Printables; reflexivity).
  repeat (split; [first [exact Hreach | exact Hq | reflexivity | exact Hrow | exact Hzero]|]).
  exact (partial_refresh_correct sys_printables_missing (env_at 10 two_each)
           "phone holder" row_printables_missing Hreach Hq eq_refl Hrow Hzero).
Defined.

(** ** Failing scrapers *)

Lemma adapter_fails_empty s r : adapter_fails r -> value_or_empty (search s r) = [].
Proof.
  unfold search. intros [H|H].
  - rewrite H. now destruct (close_throws r).
  - now rewrite H.
Qed.

Lemma merged_refreshed w q c s :
  by_source s (results (merged w q (refreshed_all c))) =
    value_or_empty (settle w (refreshed s c)) /\
  count_of s (sources (merged w q (refreshed_all c))) =
    length (value_or_empty (settle w (refreshed s c))).
Proof.
  destruct (merged_component w q (refreshed_all c) s) as [H1 H2];
    try apply slot_of_refreshed.
  rewrite H2, H1. destruct s; split; reflexivity.
Qed.

Lemma merged_call w q s :
  by_source s (results (merged w q call_all)) = value_or_empty (search s (w s)) /\
  count_of s (sources (merged w q call_all)) = length (value_or_empty (search s (w s))).
Proof.
  destruct (merged_component w q call_all s) as [H1 H2]; try reflexivity.
  rewrite H2, H1. destruct s; split; reflexivity.
Qed.

Lemma in_zero_sources s c : In s (zero_sources c) <-> count_of s (sources c) = 0.
Proof.
  unfold zero_sources. rewrite List.filter_In, Nat.eqb_eq. split; [tauto|].
  intros H. split; [|exact H]. destruct s; cbn; auto.
Qed.

Lemma refreshed_zero s c : count_of s (sources c) = 0 -> refreshed s c = Call s.
Proof. intros H. unfold refreshed. now rewrite H. Qed.

Lemma refreshed_positive s c :
  count_of s (sources c) <> 0 -> refreshed s c = Resolved (by_source s (results c)).
Proof.
  intros H. unfold refreshed.
  now destruct (Nat.eqb_spec (count_of s (sources c)) 0).
Qed.

(** C5. When a request invokes the scraper of a platform and that run fails,
    the reply is still the JSON response, never an error; the count of that
    platform is 0 and the response has no listing of it; every other platform
    that was searched has all the listings its scraper returned, with their
    number as count, and every platform that was carried over from the table
    has the listings of the record. *)
Theorem fault_isolation (e : Env) (st : State) (q : string) (src : Source) :
  q <> "" ->
  In src (invoked (handle e st (Some q)).2) ->
  adapter_fails (world e src) ->
  exists body,
    (handle e st (Some q)).1.1 = Json body /\
    count_of src (sources body) = 0 /\
    by_source src (results body) = [] /\
    (forall src', src' <> src ->
       In src' (invoked (handle e st (Some q)).2) ->
       by_source src' (results body) = value_or_empty (search src' (world e src')) /\
       count_of src' (sources body) =
         length (value_or_empty (search src' (world e src')))) /\
    (forall src' c, db_read (arrival e) st q = Some c ->
       ~ In src' (invoked (handle e st (Some q)).2) ->
       by_source src' (results body) = by_source src' (results c)).
Proof.
  intros Hq Hin Hfail.
  destruct (db_read (arrival e) st q) as [c|] eqn:Hc.
  - destruct (needsRefresh c) eqn:Hn.
    + rewrite (handle_partial e st q c) in * by assumption. cbn [fst snd] in *.
      rewrite invoked_partial in *. eexists. split; [reflexivity|].
      apply in_zero_sources in Hin.
      destruct (merged_refreshed (world e) q c src) as [H1 H2].
      rewrite (refreshed_zero _ _ Hin) in H1, H2. cbn [settle] in H1, H2.
      rewrite (adapter_fails_empty _ _ Hfail) in H1, H2.
      split; [exact H2|]. split; [exact H1|]. split.
      * intros src' _ Hin'. apply in_zero_sources in Hin'.
        destruct (merged_refreshed (world e) q c src') as [H1' H2'].
        now rewrite (refreshed_zero _ _ Hin') in H1', H2'.
      * intros src' c' [= <-] Hnin. rewrite in_zero_sources in Hnin.
        destruct (merged_refreshed (world e) q c src') as [H1' _].
        now rewrite (refreshed_positive _ _ Hnin) in H1'.
    + rewrite (handle_fresh e st q c) in Hin by assumption. destruct Hin.
  - destruct (cache_lookup (now (arrival e)) (cache st) (cacheKey q)) as [r|] eqn:Hm.
    + rewrite (handle_memory e st q r) in Hin by assumption. destruct Hin.
    + rewrite (handle_full e st q) in * by assumption. cbn [fst snd] in *.
      eexists. split; [reflexivity|].
      destruct (merged_call (world e) q src) as [H1 H2].
      rewrite (adapter_fails_empty _ _ Hfail) in H1, H2.
      split; [exact H2|]. split; [exact H1|]. split.
      * intros src' _ _. apply merged_call.
      * discriminate.
Qed.

Lemma fault_isolation_witness :
  "phone holder" <> "" /\
  In Printables (invoked (handle (env_at 0 printables_down) empty_state
                            (Some "phone holder")).2) /\
  adapter_fails (world (env_at 0 printables_down) Printables) /\
  exists body,
    (handle (env_at 0 printables_down) empty_state (Some "phone holder")).1.1
      = Json body /\
    count_of Printables (sources body) = 0 /\
    by_source Printables (results body) = [] /\
    (forall src', src' <> Printables ->
       In src' (invoked (handle (env_at 0 printables_down) empty_state
                           (Some "phone holder")).2) ->
       by_source src' (results body) =
         value_or_empty (search src' (world (env_at 0 printables_down) src')) /\
       count_of src' (sources body) =
         length (value_or_empty (search src' (world (env_at 0 printables_down) src')))) /\
    (forall src' c,
       db_read (arrival (env_at 0 printables_down)) empty_state "phone holder" = Some c ->
       ~ In src' (invoked (handle (env_at 0 printables_down) empty_state
                             (Some "phone holder")).2) ->
       by_source src' (results body) = by_source src' (results c)).
Proof.
  assert ("phone holder" <> "") as Hq by discriminate.
  assert (In Printables (invoked (handle (env_at 0 printables_down) empty_state
                                    (Some "phone holder")).2)) as Hin
    by (vm_compute; right; left; reflexivity).
  assert (adapter_fails (world (env_at 0 printables_down) Printables)) as Hfail
    by (left; reflexivity).
  repeat (split; [first [exact Hq | exact Hin | exact Hfail]|]).
  exact (fault_isolation (env_at 0 printables_down) empty_state "phone holder"
           Printables Hq Hin Hfail).
Defined.

Lemma zero_sources_all c :
  zero_sources c = all_sources <-> forall s, count_of s (sources c) = 0.
Proof.
  split.
  - intros H s. apply in_zero_sources. rewrite H. destruct s; cbn; auto.
  - intros H. unfold zero_sources, all_sources. cbn [List.filter].
    now rewrite (H Thingiverse), (H Printables), (H MakerWorld).
Qed.

Lemma merged_all_fail w q ps :
  (forall s, value_or_empty (settle w match s with
                                      | Thingiverse => ps.1.1
                                      | Printables => ps.1.2
                                      | MakerWorld => ps.2
                                      end) = []) ->
  merged w q ps = empty_response q.
Proof.
  intros H. unfold merged.
  now rewrite (H Thingiverse), (H Printables), (H MakerWorld).
Qed.

(** C6. When a request invokes all three scrapers and all three runs fail,
    the reply is not an error but the response with no listing, [total] 0 and
    every count 0. The memory cache holds it, and when the write to the table
    succeeds the table holds it too, and the next request that reads the
    table invokes all three scrapers again. *)
Theorem all_sources_fail (e : Env) (st : State) (q : string) :
  q <> "" ->
  invoked (handle e st (Some q)).2 = all_sources ->
  (forall s, adapter_fails (world e s)) ->
  (handle e st (Some q)).1.1 =
    Json {| query := q; total := 0; results := [];
            sources := {| thingiverse := 0; printables := 0; makerworld := 0 |};
            cached_at := None |} /\
  cache (handle e st (Some q)).1.2 !! cacheKey q =
    Some ((now (completion e) + stdTTL)%Z, empty_response q) /\
  (db_ok (completion e) = true ->
     (exists row, db (handle e st (Some q)).1.2 !! q = Some row /\
                  row_results row = [] /\ row_sources row = no_counts) /\
     forall e2, db_ok (arrival e2) = true ->
                invoked (handle e2 (handle e st (Some q)).1.2 (Some q)).2 = all_sources).
Proof.
  intros Hq Hinv Hfail.
  assert (handle e st (Some q) =
            (Json (empty_response q), written (completion e) q (empty_response q) st,
             (handle e st (Some q)).2)) as Heq.
  { destruct (db_read (arrival e) st q) as [c|] eqn:Hc.
    - destruct (needsRefresh c) eqn:Hn.
      + rewrite (handle_partial e st q c) in * by assumption. cbn [snd] in *.
        rewrite invoked_partial in Hinv.
        assert (forall s, count_of s (sources c) = 0) as Hz by now apply zero_sources_all.
        rewrite (merged_all_fail (world e) q (refreshed_all c)); [reflexivity|].
        intros s. replace (match s with
                           | Thingiverse => (refreshed_all c).1.1
                           | Printables => (refreshed_all c).1.2
                           | MakerWorld => (refreshed_all c).2
                           end) with (refreshed s c) by now destruct s.
        rewrite (refreshed_zero _ _ (Hz s)). cbn [settle]. now apply adapter_fails_empty.
      + rewrite (handle_fresh e st q c) in Hinv by assumption. discriminate Hinv.
    - destruct (cache_lookup (now (arrival e)) (cache st) (cacheKey q)) as [r|] eqn:Hm.
      + rewrite (handle_memory e st q r) in Hinv by assumption. discriminate Hinv.
      + rewrite (handle_full e st q) in * by assumption. cbn [snd].
        rewrite (merged_all_fail (world e) q call_all); [reflexivity|].
        intros s. replace (match s with
                           | Thingiverse => call_all.1.1
                           | Printables => call_all.1.2
                           | MakerWorld => call_all.2
                           end) with (Call s) by now destruct s.
        cbn [settle]. now apply adapter_fails_empty. }
  rewrite Heq. cbn [fst snd]. split; [reflexivity|]. split.
  - unfold written. cbn [cache]. apply lookup_insert_eq.
  - intros Hw.
    destruct (upsert_lookup (now (completion e)) q [] no_counts (db st))
      as (row & Hrow & Hrs & Hsrc & _).
    assert (db (written (completion e) q (empty_response q) st) !! q = Some row) as Hrow'.
    { unfold written. cbn [db]. rewrite Hw. exact Hrow. }
    split; [exists row; auto|].
    intros e2 Hr.
    assert (needsRefresh (row_response q row) = true) as Hn.
    { apply needsRefresh_true. exists Thingiverse. cbn. now rewrite Hsrc. }
    rewrite (handle_partial e2 _ q (row_response q row));
      [|assumption | now apply db_read_row | assumption].
    cbn [snd]. rewrite invoked_partial. apply zero_sources_all.
    intros s. cbn [row_response sources]. rewrite Hsrc. now destruct s.
Qed.

Lemma all_sources_fail_witness :
  "phone holder" <> "" /\
  invoked (handle (env_at 0 all_down) empty_state (Some "phone holder")).2 = all_sources /\
  (forall s, adapter_fails (world (env_at 0 all_down) s)) /\
  (handle (env_at 0 all_down) empty_state (Some "phone holder")).1.1 =
    Json {| query := "phone holder"; total := 0; results := [];
            sources := {| thingiverse := 0; printables := 0; makerworld := 0 |};
            cached_at := None |} /\
  cache (handle (env_at 0 all_down) empty_state (Some "phone holder")).1.2
    !! cacheKey "phone holder" =
    Some ((now (completion (env_at 0 all_down)) + stdTTL)%Z,
          empty_response "phone holder") /\
  (db_ok (completion (env_at 0 all_down)) = true ->
     (exists row,
        db (handle (env_at 0 all_down) empty_state (Some "phone holder")).1.2
          !! "phone holder" = Some row /\
        row_results row = [] /\ row_sources row = no_counts) /\
     forall e2, db_ok (arrival e2) = true ->
                invoked (handle e2 (handle (env_at 0 all_down) empty_state
                                      (Some "phone holder")).1.2
                           (Some "phone holder")).2 = all_sources).
Proof.
  assert ("phone holder" <> "") as Hq by discriminate.
  assert (invoked (handle (env_at 0 all_down) empty_state (Some "phone holder")).2
          = all_sources) as Hinv by (vm_compute; reflexivity).
  assert (forall s, adapter_fails (world (env_at 0 all_down) s)) as Hfail
    by (intros s; left; reflexivity).
  repeat (split; [first [exact Hq | exact Hinv | exact Hfail]|]).
  exact (all_sources_fail (env_at 0 all_down) empty_state "phone holder" Hq Hinv Hfail).
Defined.

(** ** Keys *)

Lemma cacheKey_inj q1 q2 : cacheKey q1 = cacheKey q2 -> q1 = q2.
Proof. unfold cacheKey. cbn. intros H. now injection H. Qed.

Lemma written_other t q r st q' :
  q <> q' ->
  db (written t q r st) !! q' = db st !! q' /\
  cache (written t q r st) !! cacheKey q' = cache st !! cacheKey q'.
Proof.
  intros Hne. unfold written. cbn [db cache]. split.
  - destruct (db_ok t); [now apply upsert_lookup_ne | reflexivity].
  - apply lookup_insert_ne. intros H. now apply cacheKey_inj in H.
Qed.

(** A request leaves the state alone or writes the entries of its query. *)
Lemma handle_state e st q :
  (handle e st (Some q)).1.2 = st \/
  exists r, (handle e st (Some q)).1.2 = written (completion e) q r st.
Proof.
  destruct (decide (q = "")) as [->|Hq]; [left; reflexivity|].
  destruct (db_read (arrival e) st q) as [c|] eqn:Hc.
  - destruct (needsRefresh c) eqn:Hn.
    + rewrite (handle_partial e st q c) by assumption. right. eexists. reflexivity.
    + rewrite (handle_fresh e st q c) by assumption. now left.
  - destruct (cache_lookup (now (arrival e)) (cache st) (cacheKey q)) as [r|] eqn:Hm.
    + rewrite (handle_memory e st q r) by assumption. now left.
    + rewrite (handle_full e st q) by assumption. right. eexists. reflexivity.
Qed.

Lemma handle_other e st q q' :
  q <> q' ->
  db (handle e st (Some q)).1.2 !! q' = db st !! q' /\
  cache (handle e st (Some q)).1.2 !! cacheKey q' = cache st !! cacheKey q'.
Proof.
  intros Hne. destruct (handle_state e st q) as [->|[r ->]]; [auto|].
  now apply written_other.
Qed.

(** C10. A query made of white space only is not rejected. The handler
    looks it up in the table under the query as it is; when neither cache
    has it, it looks up the memory cache under "search_" followed by the
    query as it is, invokes the three scrapers with it and stores the result
    under those keys. Any other query text has another key, and its entries
    are left alone. *)
Theorem whitespace_query_accepted (q : string) (e : Env) (st : State) :
  whitespace_only q ->
  exists reply st' l,
    handle e st (Some q) = (reply, st', DbGet q :: l) /\
    (exists body, reply = Json body) /\
    (db_read (arrival e) st q = None ->
     cache_lookup (now (arrival e)) (cache st) ("search_" +:+ q) = None ->
     l = [CacheGet ("search_" +:+ q); Invoke Thingiverse q; Invoke Printables q;
          Invoke MakerWorld q; CacheSet ("search_" +:+ q); DbUpsert q] /\
     is_Some (cache st' !! ("search_" +:+ q)) /\
     (db_ok (completion e) = true -> is_Some (db st' !! q))) /\
    (forall q', q' <> q ->
       cacheKey q' <> cacheKey q /\
       db st' !! q' = db st !! q' /\
       cache st' !! cacheKey q' = cache st !! cacheKey q').
Proof.
  intros [Hq _].
  assert (forall q', q' <> q ->
            cacheKey q' <> cacheKey q /\
            db (handle e st (Some q)).1.2 !! q' = db st !! q' /\
            cache (handle e st (Some q)).1.2 !! cacheKey q' = cache st !! cacheKey q')
    as Hother.
  { intros q' Hne. split; [intros H; now apply cacheKey_inj in H|].
    apply handle_other. congruence. }
  destruct (db_read (arrival e) st q) as [c|] eqn:Hc.
  - destruct (needsRefresh c) eqn:Hn.
    + rewrite (handle_partial e st q c) in * by assumption.
      eexists _, _, _. split; [reflexivity|]. split; [eauto|]. split; [discriminate|].
      exact Hother.
    + rewrite (handle_fresh e st q c) in * by assumption.
      eexists _, _, _. split; [reflexivity|]. split; [eauto|]. split; [discriminate|].
      exact Hother.
  - destruct (cache_lookup (now (arrival e)) (cache st) (cacheKey q)) as [r|] eqn:Hm.
    + rewrite (handle_memory e st q r) in * by assumption.
      eexists _, _, _. split; [reflexivity|]. split; [eauto|]. split; [|exact Hother].
      intros _ Hm'. unfold cacheKey in Hm. congruence.
    + rewrite (handle_full e st q) in * by assumption.
      eexists _, _, _. split; [reflexivity|]. split; [eauto|]. split; [|exact Hother].
      intros _ _. split; [reflexivity|]. split.
      * unfold written. cbn [cache]. fold (cacheKey q). rewrite lookup_insert_eq. eauto.
      * intros Hw. unfold written. cbn [db]. rewrite Hw.
        destruct (upsert_lookup (now (completion e)) q
                    (results (merged (world e) q call_all))
                    (sources (merged (world e) q call_all)) (db st))
          as (row & Hrow & _).
        rewrite Hrow. eauto.
Qed.

Lemma whitespace_query_accepted_witness :
  whitespace_only " " /\
  exists reply st' l,
    handle (env_at 0 two_each) empty_state (Some " ") = (reply, st', DbGet " " :: l) /\
    (exists body, reply = Json body) /\
    (db_read (arrival (env_at 0 two_each)) empty_state " " = None ->
     cache_lookup (now (arrival (env_at 0 two_each))) (cache empty_state)
       ("search_" +:+ " ") = None ->
     l = [CacheGet ("search_" +:+ " "); Invoke Thingiverse " "; Invoke Printables " ";
          Invoke MakerWorld " "; CacheSet ("search_" +:+ " "); DbUpsert " "] /\
     is_Some (cache st' !! ("search_" +:+ " ")) /\
     (db_ok (completion (env_at 0 two_each)) = true -> is_Some (db st' !! " "))) /\
    (forall q', q' <> " " ->
       cacheKey q' <> cacheKey " " /\
       db st' !! q' = db empty_state !! q' /\
       cache st' !! cacheKey q' = cache empty_state !! cacheKey q').
Proof.
  assert (whitespace_only " ") as Hws by (split; [discriminate | reflexivity]).
  split; [exact Hws|].
  exact (whitespace_query_accepted " " (env_at 0 two_each) empty_state Hws).
Defined.

(** C4, as stated, fails. Two texts that differ in case and in white space
    around have the same normal form but different keys: once the first is
    cached, a request for it reads the table and is done, and a request for
    the second finds nothing in either cache and invokes the three scrapers. *)
Lemma variants_cached_apart :
  spec_normalize " Phone Holder " = spec_normalize "phone holder" /\
  cacheKey " Phone Holder " <> cacheKey "phone holder" /\
  (handle (env_at 10 two_each) (Loop.state sys_all_found) (Some "phone holder")).2
    = [DbGet "phone holder"] /\
  (handle (env_at 10 two_each) (Loop.state sys_all_found) (Some " Phone Holder ")).2
    = [DbGet " Phone Holder "; CacheGet "search_ Phone Holder ";
       Invoke Thingiverse " Phone Holder "; Invoke Printables " Phone Holder ";
       Invoke MakerWorld " Phone Holder ";
       CacheSet "search_ Phone Holder "; DbUpsert " Phone Holder "].
Proof.
  split; [reflexivity|]. split; [discriminate|].
  split; vm_compute; reflexivity.
Qed.

Lemma db_read_local t st st' q : db st !! q = db st' !! q -> db_read t st q = db_read t st' q.
Proof. intros H. unfold db_read. now rewrite H. Qed.

Lemma cache_lookup_local t (m m' : gmap string (Z * Response)) k :
  m !! k = m' !! k -> cache_lookup t m k = cache_lookup t m' k.
Proof. intros H. unfold cache_lookup. now rewrite H. Qed.

(** The reply and the trace of a request depend on the entries of its own
    query only. *)
Lemma handle_local e st st' q :
  db st !! q = db st' !! q ->
  cache st !! cacheKey q = cache st' !! cacheKey q ->
  (handle e st (Some q)).1.1 = (handle e st' (Some q)).1.1 /\
  (handle e st (Some q)).2 = (handle e st' (Some q)).2.
Proof.
  intros Hd Hm.
  pose proof (db_read_local (arrival e) st st' q Hd) as Hr.
  pose proof (cache_lookup_local (now (arrival e)) _ _ _ Hm) as Hl.
  destruct (decide (q = "")) as [->|Hq]; [split; reflexivity|].
  destruct (db_read (arrival e) st q) as [c|] eqn:Hc.
  - destruct (needsRefresh c) eqn:Hn.
    + rewrite (handle_partial e st q c), (handle_partial e st' q c) by congruence.
      split; reflexivity.
    + rewrite (handle_fresh e st q c), (handle_fresh e st' q c) by congruence.
      split; reflexivity.
  - destruct (cache_lookup (now (arrival e)) (cache st) (cacheKey q)) as [r|] eqn:Hk.
    + rewrite (handle_memory e st q r), (handle_memory e st' q r) by congruence.
      split; reflexivity.
    + rewrite (handle_full e st q), (handle_full e st' q) by congruence.
      split; reflexivity.
Qed.

(** C4, amended. The query text is the key as it is: two different texts
    have different keys in both caches, a request for one leaves the entries
    of the other as they were, and it does not change how a request for the
    other is answered nor what that request does. *)
Theorem query_used_verbatim (q1 q2 : string) (e : Env) (st : State) :
  q1 <> q2 ->
  cacheKey q1 <> cacheKey q2 /\
  db (handle e st (Some q1)).1.2 !! q2 = db st !! q2 /\
  cache (handle e st (Some q1)).1.2 !! cacheKey q2 = cache st !! cacheKey q2 /\
  forall e2,
    (handle e2 (handle e st (Some q1)).1.2 (Some q2)).1.1 = (handle e2 st (Some q2)).1.1 /\
    (handle e2 (handle e st (Some q1)).1.2 (Some q2)).2 = (handle e2 st (Some q2)).2.
Proof.
  intros Hne. destruct (handle_other e st q1 q2 Hne) as [Hd Hm].
  split; [intros H; now apply cacheKey_inj in H|].
  split; [exact Hd|]. split; [exact Hm|].
  intros e2. now apply handle_local.
Qed.

Lemma query_used_verbatim_witness :
  " Phone Holder " <> "phone holder" /\
  cacheKey " Phone Holder " <> cacheKey "phone holder" /\
  db (handle (env_at 10 two_each) (Loop.state sys_all_found)
        (Some " Phone Holder ")).1.2 !! "phone holder"
    = db (Loop.state sys_all_found) !! "phone holder" /\
  cache (handle (env_at 10 two_each) (Loop.state sys_all_found)
           (Some " Phone Holder ")).1.2 !! cacheKey "phone holder"
    = cache (Loop.state sys_all_found) !! cacheKey "phone holder" /\
  forall e2,
    (handle e2 (handle (env_at 10 two_each) (Loop.state sys_all_found)
                  (Some " Phone Holder ")).1.2 (Some "phone holder")).1.1
      = (handle e2 (Loop.state sys_all_found) (Some "phone holder")).1.1 /\
    (handle e2 (handle (env_at 10 two_each) (Loop.state sys_all_found)
                  (Some " Phone Holder ")).1.2 (Some "phone holder")).2
      = (handle e2 (Loop.state sys_all_found) (Some "phone holder")).2.
Proof.
  assert (" Phone Holder " <> "phone holder") as Hne by discriminate.
  split; [exact Hne|].
  exact (query_used_verbatim " Phone Holder " "phone holder" (env_at 10 two_each)
           (Loop.state sys_all_found) Hne).
Defined.

(** ** Requests in flight together *)

(** C2, as stated, fails. Two requests for the same query that is in no
    cache, the second arriving while the first awaits, are both in flight;
    the scrapers are invoked twice over; and the two callers get different
    responses. *)
Lemma concurrent_requests_fetch_twice :
  Loop.inflight (Loop.run (firstn 2 two_arrivals) Loop.boot).1.1
    = [full_pending "phone holder"; full_pending "phone holder"] /\
  invoked (Loop.run two_arrivals Loop.boot).1.2
    = [Thingiverse; Printables; MakerWorld; Thingiverse; Printables; MakerWorld] /\
  (Loop.run two_arrivals Loop.boot).2
    = [Json (merged two_each "phone holder" call_all);
       Json (merged printables_down "phone holder" call_all)] /\
  total (merged two_each "phone holder" call_all) = 6 /\
  total (merged printables_down "phone holder" call_all) = 4.
Proof. repeat split; vm_compute; reflexivity. Qed.

Lemma db_read_none t st q : db st !! q = None -> db_read t st q = None.
Proof. intros H. unfold db_read. rewrite H. now destruct (db_ok t). Qed.

Lemma cache_lookup_none t (m : gmap string (Z * Response)) k :
  m !! k = None -> cache_lookup t m k = None.
Proof. intros H. unfold cache_lookup. now rewrite H. Qed.

(** C2, amended. The handler does not coalesce requests. When a query is in
    neither cache and any number of requests for it arrive before one of them
    completes, none is answered yet, each is suspended in a full fetch of its
    own, and the scrapers are invoked once per request, three invocations
    each; each request is later answered with the merge of the results of
    its own scraper runs. *)
Theorem no_request_coalescing (ticks : list Tick) (s : Loop.Sys) (q : string) :
  q <> "" ->
  db (Loop.state s) !! q = None ->
  cache (Loop.state s) !! cacheKey q = None ->
  exists l,
    Loop.run (map (fun t => Loop.Arrive t (Some q)) ticks) s =
      ({| Loop.state := Loop.state s;
          Loop.inflight :=
            (Loop.inflight s ++ repeat (full_pending q) (length ticks))%list |},
       l, []) /\
    invoked l = concat (repeat all_sources (length ticks)) /\
    length (invoked l) = 3 * length ticks /\
    forall w t st,
      (search_finish (full_pending q) (allSettled w (searchPromises (full_pending q)))
         t st).1.1 = Json (merged w q call_all).
Proof.
  intros Hq Hd Hm. revert s Hd Hm.
  induction ticks as [|t ticks IH]; intros s Hd Hm.
  - exists []. cbn [length repeat map Loop.run]. rewrite app_nil_r. destruct s.
    split; [reflexivity|]. split; [reflexivity|]. split; [reflexivity|].
    intros w t st. now rewrite search_finish_eq.
  - cbn [map Loop.run Loop.step].
    rewrite (search_start_full q t (Loop.state s))
      by auto using db_read_none, cache_lookup_none.
    destruct (IH {| Loop.state := Loop.state s;
                    Loop.inflight := (Loop.inflight s ++ [full_pending q])%list |})
      as (l & Hrun & Hinv & Hlen & Hfin); [assumption..|].
    unfold full_pending, call_all in *. rewrite Hrun. cbn [Loop.state Loop.inflight].
    eexists. split; [|split; [|split]].
    + rewrite <- app_assoc. reflexivity.
    + rewrite invoked_app, Hinv. reflexivity.
    + rewrite invoked_app, length_app, Hlen. cbn. lia.
    + exact Hfin.
Qed.

Lemma no_request_coalescing_witness :
  "phone holder" <> "" /\
  db (Loop.state Loop.boot) !! "phone holder" = None /\
  cache (Loop.state Loop.boot) !! cacheKey "phone holder" = None /\
  exists l,
    Loop.run (map (fun t => Loop.Arrive t (Some "phone holder")) [tick 0; tick 1])
      Loop.boot =
      ({| Loop.state := Loop.state Loop.boot;
          Loop.inflight :=
            (Loop.inflight Loop.boot
               ++ repeat (full_pending "phone holder") (length [tick 0; tick 1]))%list |},
       l, []) /\
    invoked l = concat (repeat all_sources (length [tick 0; tick 1])) /\
    length (invoked l) = 3 * length [tick 0; tick 1] /\
    forall w t st,
      (search_finish (full_pending "phone holder")
         (allSettled w (searchPromises (full_pending "phone holder"))) t st).1.1
        = Json (merged w "phone holder" call_all).
Proof.
  assert ("phone holder" <> "") as Hq by discriminate.
  split; [exact Hq|]. split; [reflexivity|]. split; [reflexivity|].
  exact (no_request_coalescing [tick 0; tick 1] Loop.boot "phone holder" Hq
           eq_refl eq_refl).
Defined.

(** * Further properties of the code *)

(** ** The table: [getCachedSearch], [cacheSearch], the clean-up *)

(** X1. What [cacheSearch] stores, [getCachedSearch] reads back: the same
    listings and counts, their number as [total], and the time of the write
    as [cached_at]; the record of any other query reads as before. *)
Theorem stored_search_read_back (q : string) (rs : list Listing) (c : SourceCounts)
  (t1 t2 : Tick) (st : State) :
  db_ok t1 = true ->
  db_ok t2 = true ->
  (getCachedSearch q t2 (cacheSearch q rs c t1 st).1.2).1.1 =
    Some {| query := q; total := length rs; results := rs; sources := c;
            cached_at := Some (now t1) |} /\
  forall q', q' <> q ->
    (getCachedSearch q' t2 (cacheSearch q rs c t1 st).1.2).1.1 =
    (getCachedSearch q' t2 st).1.1.
Proof.
  intros H1 H2. unfold getCachedSearch, cacheSearch, db_read. cbn [fst snd].
  rewrite H1, H2. cbn [db]. split.
  - destruct (upsert_lookup (now t1) q rs c (db st)) as (row & Hrow & Hrs & Hsrc & Hup).
    rewrite Hrow. cbn. unfold row_response. now rewrite Hrs, Hsrc, Hup.
  - intros q' Hne. rewrite upsert_lookup_ne by congruence. reflexivity.
Qed.

Lemma stored_search_read_back_witness :
  db_ok (tick 5) = true /\
  db_ok (tick 9) = true /\
  (getCachedSearch "benchy" (tick 9)
     (cacheSearch "benchy" (formatResults Printables [sample "a"])
        {| thingiverse := 0; printables := 1; makerworld := 0 |} (tick 5)
        empty_state).1.2).1.1 =
    Some {| query := "benchy";
            total := length (formatResults Printables [sample "a"]);
            results := formatResults Printables [sample "a"];
            sources := {| thingiverse := 0; printables := 1; makerworld := 0 |};
            cached_at := Some (now (tick 5)) |} /\
  forall q', q' <> "benchy" ->
    (getCachedSearch q' (tick 9)
       (cacheSearch "benchy" (formatResults Printables [sample "a"])
          {| thingiverse := 0; printables := 1; makerworld := 0 |} (tick 5)
          empty_state).1.2).1.1 =
    (getCachedSearch q' (tick 9) empty_state).1.1.
Proof.
  split; [reflexivity|]. split; [reflexivity|].
  exact (stored_search_read_back "benchy" (formatResults Printables [sample "a"])
           {| thingiverse := 0; printables := 1; makerworld := 0 |}
           (tick 5) (tick 9) empty_state eq_refl eq_refl).
Defined.

Lemma upsert_keeps t q rs c (d : gmap string Row) q0 row :
  d !! q0 = Some row ->
  exists row', upsert t q rs c d !! q0 = Some row' /\
               created_at row' = created_at row /\
               (row' = row \/ (q0 = q /\ updated_at row' = t)).
Proof.
  intros Hrow. destruct (decide (q = q0)) as [->|Hne].
  - unfold upsert. rewrite Hrow, lookup_insert_eq. eexists. split; [reflexivity|].
    cbn. auto.
  - rewrite upsert_lookup_ne by assumption. eauto.
Qed.

(** X2. A request never deletes a row of the table and never changes when a
    row was created: every row is still there afterwards, with the same
    creation time, and it is the same row unless it is the row of the
    requested query, rewritten at the time the request completed. *)
Theorem rows_outlive_requests (e : Env) (st : State) (req q : string) (row : Row) :
  db st !! q = Some row ->
  exists row',
    db (handle e st (Some req)).1.2 !! q = Some row' /\
    created_at row' = created_at row /\
    (row' = row \/ (q = req /\ updated_at row' = now (completion e))).
Proof.
  intros Hrow. destruct (handle_state e st req) as [->|[r ->]]; [eauto|].
  unfold written. cbn [db]. destruct (db_ok (completion e)); [|eauto].
  now apply upsert_keeps.
Qed.

Lemma rows_outlive_requests_witness :
  db (Loop.state sys_printables_missing) !! "phone holder" = Some row_printables_missing /\
  exists row',
    db (handle (env_at 10 two_each) (Loop.state sys_printables_missing)
          (Some "phone holder")).1.2 !! "phone holder" = Some row' /\
    created_at row' = created_at row_printables_missing /\
    (row' = row_printables_missing \/
     ("phone holder" = "phone holder" /\
      updated_at row' = now (completion (env_at 10 two_each)))).
Proof.
  assert (db (Loop.state sys_printables_missing) !! "phone holder"
          = Some row_printables_missing) as Hrow by (vm_compute; reflexivity).
  split; [exact Hrow|].
  exact (rows_outlive_requests (env_at 10 two_each) (Loop.state sys_printables_missing)
           "phone holder" "phone holder" row_printables_missing Hrow).
Defined.

Lemma db_read_failed t st q : db_ok t = false -> db_read t st q = None.
Proof. intros H. unfold db_read. now rewrite H. Qed.

(** X3. When the read of the table throws, the handler goes on as on a
    miss, whatever the table holds: an unexpired entry of the memory cache is
    returned as it is, and without one all three scrapers are invoked and
    the merge of their results is written over both caches. *)
Theorem failed_read_is_a_miss (e : Env) (st : State) (q : string) :
  q <> "" ->
  db_ok (arrival e) = false ->
  (forall r, cache_lookup (now (arrival e)) (cache st) (cacheKey q) = Some r ->
     handle e st (Some q) = (Json r, st, [DbGet q; CacheGet (cacheKey q)])) /\
  (cache_lookup (now (arrival e)) (cache st) (cacheKey q) = None ->
     handle e st (Some q) =
       (Json (merged (world e) q call_all),
        written (completion e) q (merged (world e) q call_all) st,
        [DbGet q; CacheGet (cacheKey q); Invoke Thingiverse q; Invoke Printables q;
         Invoke MakerWorld q; CacheSet (cacheKey q); DbUpsert q])).
Proof.
  intros Hq Hfail. pose proof (db_read_failed (arrival e) st q Hfail) as Hc. split.
  - intros r Hm. now apply handle_memory.
  - intros Hm. now apply handle_full.
Qed.

Lemma failed_read_is_a_miss_witness :
  "phone holder" <> "" /\
  db_ok (arrival {| arrival := {| now := 10; db_ok := false |};
                    world := printables_down; completion := tick 15 |}) = false /\
  (forall r,
     cache_lookup
       (now (arrival {| arrival := {| now := 10; db_ok := false |};
                        world := printables_down; completion := tick 15 |}))
       (cache (Loop.state sys_all_found)) (cacheKey "phone holder") = Some r ->
     handle {| arrival := {| now := 10; db_ok := false |};
               world := printables_down; completion := tick 15 |}
       (Loop.state sys_all_found) (Some "phone holder") =
       (Json r, Loop.state sys_all_found,
        [DbGet "phone holder"; CacheGet (cacheKey "phone holder")])) /\
  (cache_lookup
     (now (arrival {| arrival := {| now := 10; db_ok := false |};
                      world := printables_down; completion := tick 15 |}))
     (cache (Loop.state sys_all_found)) (cacheKey "phone holder") = None ->
   handle {| arrival := {| now := 10; db_ok := false |};
             world := printables_down; completion := tick 15 |}
     (Loop.state sys_all_found) (Some "phone holder") =
     (Json (merged
              (world {| arrival := {| now := 10; db_ok := false |};
                        world := printables_down; completion := tick 15 |})
              "phone holder" call_all),
      written
        (completion {| arrival := {| now := 10; db_ok := false |};
                       world := printables_down; completion := tick 15 |})
        "phone holder"
        (merged
           (world {| arrival := {| now := 10; db_ok := false |};
                     world := printables_down; completion := tick 15 |})
           "phone holder" call_all)
        (Loop.state sys_all_found),
      [DbGet "phone holder"; CacheGet (cacheKey "phone holder");
       Invoke Thingiverse "phone holder"; Invoke Printables "phone holder";
       Invoke MakerWorld "phone holder"; CacheSet (cacheKey "phone holder");
       DbUpsert "phone holder"])).
Proof.
  assert ("phone holder" <> "") as Hq by discriminate.
  split; [exact Hq|]. split; [reflexivity|].
  exact (failed_read_is_a_miss
           {| arrival := {| now := 10; db_ok := false |};
              world := printables_down; completion := tick 15 |}
           (Loop.state sys_all_found) "phone holder" Hq eq_refl).
Defined.

(** X4. When the write to the table throws, the request is answered as
    usual and the table is left as it was. If the query had no row, the
    memory cache alone holds the response, and until that entry expires the
    next request is answered from it without any scraper being invoked, also
    when some of its counts are 0. *)
Theorem failed_write_leaves_memory_only (e e2 : Env) (st : State) (q : string) :
  q <> "" ->
  db st !! q = None ->
  cache_lookup (now (arrival e)) (cache st) (cacheKey q) = None ->
  db_ok (completion e) = false ->
  (now (arrival e2) <= now (completion e) + stdTTL)%Z ->
  (handle e st (Some q)).1.1 = Json (merged (world e) q call_all) /\
  db (handle e st (Some q)).1.2 = db st /\
  handle e2 (handle e st (Some q)).1.2 (Some q) =
    (Json (merged (world e) q call_all), (handle e st (Some q)).1.2,
     [DbGet q; CacheGet (cacheKey q)]).
Proof.
  intros Hq Hd Hm Hw Ht.
  rewrite (handle_full e st q) by auto using db_read_none.
  cbn [fst snd]. split; [reflexivity|].
  assert (db (written (completion e) q (merged (world e) q call_all) st) = db st) as Hdb.
  { unfold written. cbn [db]. now rewrite Hw. }
  split; [exact Hdb|].
  apply handle_memory; [assumption | apply db_read_none; now rewrite Hdb |].
  unfold cache_lookup, written. cbn [cache]. rewrite lookup_insert_eq.
  destruct (Z.ltb_spec (now (completion e) + stdTTL) (now (arrival e2))); [lia|reflexivity].
Qed.

Lemma failed_write_leaves_memory_only_witness :
  "phone holder" <> "" /\
  db empty_state !! "phone holder" = None /\
  cache_lookup (now (arrival env_write_fails)) (cache empty_state)
    (cacheKey "phone holder") = None /\
  db_ok (completion env_write_fails) = false /\
  (now (arrival (env_at 10 two_each)) <= now (completion env_write_fails) + stdTTL)%Z /\
  (handle env_write_fails empty_state (Some "phone holder")).1.1 =
    Json (merged (world env_write_fails) "phone holder" call_all) /\
  db (handle env_write_fails empty_state (Some "phone holder")).1.2 = db empty_state /\
  handle (env_at 10 two_each)
    (handle env_write_fails empty_state (Some "phone holder")).1.2
    (Some "phone holder") =
    (Json (merged (world env_write_fails) "phone holder" call_all),
     (handle env_write_fails empty_state (Some "phone holder")).1.2,
     [DbGet "phone holder"; CacheGet (cacheKey "phone holder")]).
Proof.
  assert ("phone holder" <> "") as Hq by discriminate.
  assert (now (arrival (env_at 10 two_each))
          <= now (completion env_write_fails) + stdTTL)%Z as Ht by (vm_compute; discriminate).
  split; [exact Hq|]. split; [reflexivity|]. split; [reflexivity|].
  split; [reflexivity|]. split; [exact Ht|].
  exact (failed_write_leaves_memory_only env_write_fails (env_at 10 two_each)
           empty_state "phone holder" Hq eq_refl eq_refl eq_refl Ht).
Defined.

Lemma no_write_in_calls q l :
  List.filter is_write (map (fun s => Invoke s q) l) = [].
Proof. induction l as [|s l IH]; [reflexivity | exact IH]. Qed.

(** X5. A request writes the caches exactly when it invoked a scraper. With
    no invocation the state is unchanged and the trace has no write; hits do
    not renew the entry of the memory cache. With an invocation, every
    invocation carries the query of the request and the writes are the set
    of its memory key followed by the upsert of its row, once each. *)
Theorem writes_only_after_fetching (e : Env) (st : State) (req : option string) :
  (invoked (handle e st req).2 = [] ->
     (handle e st req).1.2 = st /\
     List.filter is_write (handle e st req).2 = []) /\
  (invoked (handle e st req).2 <> [] ->
     exists q, req = Some q /\
       List.filter is_write (handle e st req).2 = [CacheSet (cacheKey q); DbUpsert q] /\
       forall s q', In (Invoke s q') (handle e st req).2 -> q' = q).
Proof.
  destruct req as [q|]; [|rewrite handle_absent; split; [auto | intros []; reflexivity]].
  destruct (decide (q = "")) as [->|Hq];
    [rewrite handle_empty; split; [auto | intros []; reflexivity]|].
  destruct (db_read (arrival e) st q) as [c|] eqn:Hc.
  - destruct (needsRefresh c) eqn:Hn.
    + rewrite (handle_partial e st q c) by assumption. cbn [fst snd].
      rewrite invoked_partial. split.
      * intros Hz. apply needsRefresh_true in Hn as [s Hs].
        apply in_zero_sources in Hs. rewrite Hz in Hs. destruct Hs.
      * intros _. exists q. split; [reflexivity|]. split.
        -- cbn [List.filter is_write]. rewrite List.filter_app, no_write_in_calls.
           reflexivity.
        -- intros s q' [Hin|Hin]; [discriminate Hin|].
           apply in_app_or in Hin as [Hin|Hin].
           ++ apply in_map_iff in Hin as (s' & Hs' & _). now injection Hs'.
           ++ destruct Hin as [Hin|[Hin|[]]]; discriminate Hin.
    + rewrite (handle_fresh e st q c) by assumption. split; [auto | intros []; reflexivity].
  - destruct (cache_lookup (now (arrival e)) (cache st) (cacheKey q)) as [r|] eqn:Hm.
    + rewrite (handle_memory e st q r) by assumption.
      split; [auto | intros []; reflexivity].
    + rewrite (handle_full e st q) by assumption. cbn [fst snd]. split.
      * discriminate.
      * intros _. exists q. split; [reflexivity|]. split; [reflexivity|].
        intros s q' Hin.
        repeat (destruct Hin as [Hin|Hin]; [first [discriminate Hin | now injection Hin]|]).
        destruct Hin.
Qed.

Lemma writes_only_after_fetching_witness :
  (invoked (handle (env_at 10 two_each) (Loop.state sys_printables_missing)
              (Some "phone holder")).2 = [] ->
     (handle (env_at 10 two_each) (Loop.state sys_printables_missing)
        (Some "phone holder")).1.2 = Loop.state sys_printables_missing /\
     List.filter is_write
       (handle (env_at 10 two_each) (Loop.state sys_printables_missing)
          (Some "phone holder")).2 = []) /\
  (invoked (handle (env_at 10 two_each) (Loop.state sys_printables_missing)
              (Some "phone holder")).2 <> [] ->
     exists q, Some "phone holder" = Some q /\
       List.filter is_write
         (handle (env_at 10 two_each) (Loop.state sys_printables_missing)
            (Some "phone holder")).2 = [CacheSet (cacheKey q); DbUpsert q] /\
       forall s q',
         In (Invoke s q')
           (handle (env_at 10 two_each) (Loop.state sys_printables_missing)
              (Some "phone holder")).2 -> q' = q).
Proof.
  exact (writes_only_after_fetching (env_at 10 two_each)
           (Loop.state sys_printables_missing) (Some "phone holder")).
Defined.

Lemma cleanOldSearches_lookup t (d : gmap string Row) q row :
  cleanOldSearches t d !! q = Some row <->
  d !! q = Some row /\ (t - retention <= updated_at row)%Z.
Proof. unfold cleanOldSearches. now rewrite map_lookup_filter_Some. Qed.

(** X6. A record outlives a restart exactly when it was updated within the
    last seven days. After a restart, a record that is recent enough and has
    every count positive is served without any scraper being invoked; a
    record that is older is gone and, the memory cache being empty, the
    request for it invokes all three scrapers. *)
Theorem restart_keeps_recent_records (e : Env) (st : State) (t : Z) (q : string)
  (row : Row) :
  q <> "" ->
  db_ok (arrival e) = true ->
  db st !! q = Some row ->
  ((t - retention <= updated_at row)%Z ->
     (forall s, 0 < count_of s (row_sources row)) ->
     handle e (restarted t st) (Some q) =
       (Json (row_response q row), restarted t st, [DbGet q])) /\
  ((updated_at row < t - retention)%Z ->
     db (restarted t st) !! q = None /\
     invoked (handle e (restarted t st) (Some q)).2 = all_sources).
Proof.
  intros Hq Hok Hrow. split.
  - intros Hrecent Hpos. apply handle_fresh; [assumption | |].
    + apply db_read_row; [assumption|]. unfold restarted. cbn [db].
      now apply cleanOldSearches_lookup.
    + now apply needsRefresh_false.
  - intros Hold.
    assert (db (restarted t st) !! q = None) as Hgone.
    { unfold restarted. cbn [db].
      destruct (cleanOldSearches t (db st) !! q) as [row'|] eqn:E; [|reflexivity].
      apply cleanOldSearches_lookup in E as [E1 E2].
      assert (row' = row) as -> by congruence. lia. }
    split; [exact Hgone|].
    rewrite (handle_full e (restarted t st) q); [reflexivity | assumption | |].
    + now apply db_read_none.
    + apply cache_lookup_none. unfold restarted. cbn [cache]. apply lookup_empty.
Qed.

Lemma restart_keeps_recent_records_witness :
  "phone holder" <> "" /\
  db_ok (arrival (env_at 700000 two_each)) = true /\
  db (Loop.state sys_all_found) !! "phone holder" = Some row_all_found /\
  ((700000 - retention <= updated_at row_all_found)%Z ->
     (forall s, 0 < count_of s (row_sources row_all_found)) ->
     handle (env_at 700000 two_each) (restarted 700000 (Loop.state sys_all_found))
       (Some "phone holder") =
       (Json (row_response "phone holder" row_all_found),
        restarted 700000 (Loop.state sys_all_found), [DbGet "phone holder"])) /\
  ((updated_at row_all_found < 700000 - retention)%Z ->
     db (restarted 700000 (Loop.state sys_all_found)) !! "phone holder" = None /\
     invoked (handle (env_at 700000 two_each)
                (restarted 700000 (Loop.state sys_all_found))
                (Some "phone holder")).2 = all_sources).
Proof.
  assert ("phone holder" <> "") as Hq by discriminate.
  assert (db (Loop.state sys_all_found) !! "phone holder" = Some row_all_found) as Hrow
    by (vm_compute; reflexivity).
  split; [exact Hq|]. split; [reflexivity|]. split; [exact Hrow|].
  exact (restart_keeps_recent_records (env_at 700000 two_each)
           (Loop.state sys_all_found) 700000 "phone holder" row_all_found
           Hq eq_refl Hrow).
Defined.

(** ** What every cached record and every response is made of *)

Section ReplyInvariant.

Variable Q : Source -> list Listing -> Prop.
Variable W : (Source -> AdapterRun) -> Prop.
Hypothesis Q_search : forall w s, W w -> Q s (value_or_empty (search s (w s))).

Lemma segments_ok_merge lt lp lm :
  tagged Thingiverse lt -> tagged Printables lp -> tagged MakerWorld lm ->
  Q Thingiverse lt -> Q Printables lp -> Q MakerWorld lm ->
  segments_ok Q (lt ++ lp ++ lm)%list.
Proof.
  intros Ht Hp Hm Qt Qp Qm. split.
  - now rewrite !(by_source_merge _ lt lp lm).
  - intros s. rewrite by_source_merge by assumption. now destruct s.
Qed.

Lemma promise_ok_settle w s p :
  W w -> slot_of s p -> promise_ok Q s p -> Q s (value_or_empty (settle w p)).
Proof.
  intros Hw Hslot Hp. destruct p as [s'|value]; cbn in *.
  - subst s'. now apply Q_search.
  - exact Hp.
Qed.

Lemma search_finish_ok p w t st body :
  W w -> pending_ok Q p ->
  (search_finish p (allSettled w (searchPromises p)) t st).1.1 = Json body ->
  segments_ok Q (results body).
Proof.
  intros Hw ((H0 & H1 & H2) & P0 & P1 & P2). rewrite search_finish_eq. cbn [fst].
  intros [= <-]. cbn [fresh_response results]. unfold allSettled. cbn [fst snd].
  apply segments_ok_merge;
    first [now apply tagged_settle | now apply promise_ok_settle].
Qed.

Lemma written_ok t q r st :
  state_ok Q st -> segments_ok Q (results r) -> state_ok Q (written t q r st).
Proof.
  intros [Hc Hd] Hr. split; cbn [written cache db].
  - intros k x. destruct (decide (cacheKey q = k)) as [<-|Hne].
    + rewrite lookup_insert_eq. intros [= <-]. exact Hr.
    + rewrite lookup_insert_ne by assumption. apply Hc.
  - intros q' row. destruct (db_ok t); [|apply Hd].
    destruct (decide (q = q')) as [<-|Hne].
    + destruct (upsert_lookup (now t) q (results r) (sources r) (db st))
        as (row' & Hrow & Hrs & _).
      rewrite Hrow. intros [= <-]. now rewrite Hrs.
    + rewrite upsert_lookup_ne by assumption. apply Hd.
Qed.

Lemma search_finish_state_ok p w t st :
  W w -> pending_ok Q p -> state_ok Q st ->
  state_ok Q (search_finish p (allSettled w (searchPromises p)) t st).1.2.
Proof.
  intros Hw Hp Hst. pose proof (search_finish_ok p w t st) as Hb.
  rewrite search_finish_eq in *. cbn [fst snd] in *.
  apply written_ok; [assumption|]. now apply Hb.
Qed.

Lemma db_read_ok t st q c :
  state_ok Q st -> db_read t st q = Some c -> segments_ok Q (results c).
Proof.
  intros [_ Hd]. unfold db_read. destruct (db_ok t); [|discriminate].
  destruct (db st !! q) as [row|] eqn:Hrow; [|discriminate].
  intros [= <-]. now apply (Hd q).
Qed.

Lemma cache_lookup_ok t st k r :
  state_ok Q st -> cache_lookup t (cache st) k = Some r -> segments_ok Q (results r).
Proof.
  intros [Hc _]. unfold cache_lookup.
  destruct (cache st !! k) as [[expires v]|] eqn:Hk; [|discriminate].
  destruct (expires <? t)%Z; [discriminate|]. intros [= <-]. apply (Hc k _ Hk).
Qed.

Lemma promise_ok_refreshed s c :
  segments_ok Q (results c) -> promise_ok Q s (refreshed s c).
Proof.
  intros [_ Hq]. unfold refreshed.
  destruct (count_of s (sources c) =? 0)%nat; cbn; [exact I | apply Hq].
Qed.

Lemma search_start_ok q t st :
  state_ok Q st ->
  match (search_start q t st).1.1 with
  | Replied (Json body) => segments_ok Q (results body)
  | Replied _ => True
  | Awaiting p => pending_ok Q p
  end.
Proof.
  intros Hst. destruct q as [q|]; [|exact I].
  destruct (decide (q = "")) as [->|Hq]; [exact I|].
  destruct (db_read t st q) as [c|] eqn:Hc.
  - pose proof (db_read_ok t st q c Hst Hc) as Hseg.
    destruct (needsRefresh c) eqn:Hn.
    + rewrite (search_start_partial q t st c) by assumption. cbn [fst].
      split; [|cbn; repeat split; now apply promise_ok_refreshed].
      repeat split; apply slot_of_refreshed.
    + now rewrite (search_start_fresh q t st c).
  - destruct (cache_lookup (now t) (cache st) (cacheKey q)) as [r|] eqn:Hm.
    + rewrite (search_start_memory q t st r) by assumption. cbn [fst].
      now apply (cache_lookup_ok (now t) st (cacheKey q)).
    + rewrite (search_start_full q t st) by assumption. cbn [fst].
      split; [|cbn; auto]. repeat split; reflexivity.
Qed.

Lemma step_ok a s :
  action_ok W a -> sys_ok Q s ->
  sys_ok Q (Loop.step a s).1.1 /\
  forall body, (Loop.step a s).2 = Some (Json body) -> segments_ok Q (results body).
Proof.
  intros Ha [Hst Hin]. destruct a as [t q|i w t|t]; cbn [Loop.step].
  - pose proof (search_start_state q t (Loop.state s)) as Hsame.
    pose proof (search_start_ok q t (Loop.state s) Hst) as Hok.
    destruct (search_start q t (Loop.state s)) as [[started st1] l].
    cbn [fst snd] in *. subst st1. destruct started as [r|p]; cbn [fst snd].
    + split; [split; assumption|]. intros body [= ->]. exact Hok.
    + split; [|discriminate]. split; [assumption|]. cbn.
      apply Forall_app. split; [assumption|]. constructor; [exact Hok | constructor].
  - destruct (Loop.inflight s !! i) as [p|] eqn:Hp.
    + assert (pending_ok Q p) as Hwp by (eapply Forall_lookup_1; eassumption).
      pose proof (search_finish_state_ok p w t (Loop.state s) Ha Hwp Hst) as Hwf.
      pose proof (search_finish_ok p w t (Loop.state s)) as Hcons.
      destruct (search_finish p (allSettled w (searchPromises p)) t (Loop.state s))
        as [[r st1] l].
      cbn [fst snd] in *. split.
      * split; cbn; [assumption | now apply Forall_delete].
      * intros body [= ->]. now apply Hcons.
    + cbn. split; [split; assumption | discriminate].
  - cbn. split; [|discriminate]. split; cbn; [|constructor]. destruct Hst as [_ Hd].
    split; cbn.
    + intros k x. rewrite lookup_empty. discriminate.
    + intros q row. unfold cleanOldSearches. rewrite map_lookup_filter_Some.
      intros [Hrow _]. now apply (Hd q).
Qed.

Lemma run_ok sched : forall s,
  Forall (action_ok W) sched -> sys_ok Q s ->
  sys_ok Q (Loop.run sched s).1.1 /\
  forall body, In (Json body) (Loop.run sched s).2 -> segments_ok Q (results body).
Proof.
  induction sched as [|a rest IH]; intros s Hsched Hs; cbn [Loop.run].
  - split; [assumption | intros body []].
  - inversion Hsched as [|? ? Ha Hrest]; subst.
    destruct (step_ok a s Ha Hs) as [Hs1 Hr1].
    destruct (Loop.step a s) as [[s1 l1] r1]. cbn [fst snd] in *.
    destruct (IH s1 Hrest Hs1) as [Hs2 Hr2].
    destruct (Loop.run rest s1) as [[s2 l2] r2]. cbn [fst snd] in *.
    split; [assumption|]. intros body Hin. apply in_app_or in Hin as [Hin|Hin].
    + destruct r1 as [r|]; cbn in Hin; [|contradiction].
      destruct Hin as [->|[]]. now apply Hr1.
    + now apply Hr2.
Qed.

Lemma boot_ok : sys_ok Q Loop.boot.
Proof.
  split; [split|]; cbn.
  - intros k x. rewrite lookup_empty. discriminate.
  - intros q row. rewrite lookup_empty. discriminate.
  - constructor.
Qed.

End ReplyInvariant.

Lemma second_request_same_envelope_witness :
  "phone holder" <> "" /\
  handle (env_at 0 two_each) empty_state (Some "phone holder") =
    (Json (merged two_each "phone holder" call_all),
     written (tick 5) "phone holder" (merged two_each "phone holder" call_all)
       empty_state,
     [DbGet "phone holder"; CacheGet (cacheKey "phone holder");
      Invoke Thingiverse "phone holder"; Invoke Printables "phone holder";
      Invoke MakerWorld "phone holder"; CacheSet (cacheKey "phone holder");
      DbUpsert "phone holder"]) /\
  exists body2,
    handle (env_at 10 all_down)
      (written (tick 5) "phone holder" (merged two_each "phone holder" call_all)
         empty_state) (Some "phone holder") =
      (Json body2,
       written (tick 5) "phone holder" (merged two_each "phone holder" call_all)
         empty_state,
       [DbGet "phone holder"]) /\
    query body2 = query (merged two_each "phone holder" call_all) /\
    total body2 = total (merged two_each "phone holder" call_all) /\
    results body2 = results (merged two_each "phone holder" call_all) /\
    sources body2 = sources (merged two_each "phone holder" call_all).
Proof.
  assert ("phone holder" <> "") as Hq by discriminate.
  assert (handle (env_at 0 two_each) empty_state (Some "phone holder") =
          (Json (merged two_each "phone holder" call_all),
           written (tick 5) "phone holder" (merged two_each "phone holder" call_all)
             empty_state,
           [DbGet "phone holder"; CacheGet (cacheKey "phone holder");
            Invoke Thingiverse "phone holder"; Invoke Printables "phone holder";
            Invoke MakerWorld "phone holder"; CacheSet (cacheKey "phone holder");
            DbUpsert "phone holder"])) as H1
    by (apply (handle_full (env_at 0 two_each) empty_state "phone holder");
        [exact Hq | reflexivity | reflexivity]).
  split; [exact Hq|]. split; [exact H1|].
  refine (second_request_same_envelope (env_at 0 two_each) (env_at 10 all_down)
            empty_state "phone holder" _ _ _ Hq H1 _ eq_refl eq_refl _).
  - discriminate.
  - intros []; vm_compute; lia.
Defined.

Lemma tag_id_inj s1 s2 u1 u2 :
  source_tag s1 +:+ "_" +:+ u1 = source_tag s2 +:+ "_" +:+ u2 -> s1 = s2 /\ u1 = u2.
Proof.
  destruct s1, s2; cbn; intros H; try discriminate H; injection H; auto.
Qed.

Lemma segments_ok_tags Q rs r :
  segments_ok Q rs -> In r rs -> exists s, source r = source_tag s /\ In r (by_source s rs).
Proof.
  intros [Hrs _] Hin. rewrite Hrs in Hin.
  apply in_app_or in Hin as [Hin|Hin]; [|apply in_app_or in Hin as [Hin|Hin]].
  - exists Thingiverse. split; [|exact Hin].
    pose proof (tagged_by_source Thingiverse rs) as Ht.
    unfold tagged in Ht. rewrite List.Forall_forall in Ht. now apply Ht.
  - exists Printables. split; [|exact Hin].
    pose proof (tagged_by_source Printables rs) as Ht.
    unfold tagged in Ht. rewrite List.Forall_forall in Ht. now apply Ht.
  - exists MakerWorld. split; [|exact Hin].
    pose proof (tagged_by_source MakerWorld rs) as Ht.
    unfold tagged in Ht. rewrite List.Forall_forall in Ht. now apply Ht.
Qed.

Lemma formatResults_ids s items : List.Forall id_from_url (formatResults s items).
Proof.
  unfold formatResults. induction items as [|i items IH]; cbn.
  - constructor.
  - constructor; [reflexivity | exact IH].
Qed.

Lemma search_ids w s :
  List.Forall id_from_url (value_or_empty (search s (w s))).
Proof.
  unfold search. destruct (close_throws (w s)); cbn; [constructor|].
  destruct (scrape (w s)); [apply formatResults_ids | constructor].
Qed.

(** X7. In every response the server sends, in any schedule from an empty
    server, the listings come platform by platform in a fixed order: those
    of Thingiverse, then those of Printables, then those of MakerWorld. *)
Theorem results_grouped_by_platform (sched : list Loop.Action) (body : Response) :
  In (Json body) (Loop.run sched Loop.boot).2 ->
  results body =
    (by_source Thingiverse (results body) ++ by_source Printables (results body)
       ++ by_source MakerWorld (results body))%list.
Proof.
  intros Hin.
  destruct (run_ok (fun _ _ => True) (fun _ => True) (fun _ _ _ => I) sched Loop.boot)
    as [_ Hr].
  - apply List.Forall_forall. intros a _. now destruct a.
  - apply boot_ok.
  - exact (proj1 (Hr body Hin)).
Qed.

Lemma results_grouped_by_platform_witness :
  In (Json (merged printables_down "benchy" call_all))
    (Loop.run three_requests Loop.boot).2 /\
  results (merged printables_down "benchy" call_all) =
    (by_source Thingiverse (results (merged printables_down "benchy" call_all))
       ++ by_source Printables (results (merged printables_down "benchy" call_all))
       ++ by_source MakerWorld (results (merged printables_down "benchy" call_all)))%list.
Proof.
  assert (In (Json (merged printables_down "benchy" call_all))
            (Loop.run three_requests Loop.boot).2) as Hin
    by (vm_compute; right; right; left; reflexivity).
  split; [exact Hin|].
  exact (results_grouped_by_platform three_requests _ Hin).
Defined.

(** X8. In every response the server sends, every listing has the tag of one
    of the three platforms as [source] and its [id] is that tag, an
    underscore and its [url]; so two listings of a response have the same
    [id] only when they have the same [source] and the same [url]. *)
Theorem ids_derived_from_source_and_url (sched : list Loop.Action) (body : Response) :
  In (Json body) (Loop.run sched Loop.boot).2 ->
  (forall r, In r (results body) ->
     (exists s, source r = source_tag s) /\ lid r = source r +:+ "_" +:+ url r) /\
  (forall r1 r2, In r1 (results body) -> In r2 (results body) ->
     lid r1 = lid r2 -> source r1 = source r2 /\ url r1 = url r2).
Proof.
  intros Hin.
  destruct (run_ok (fun _ l => List.Forall id_from_url l) (fun _ => True)
              (fun w s _ => search_ids w s) sched Loop.boot) as [_ Hr].
  - apply List.Forall_forall. intros a _. now destruct a.
  - apply boot_ok.
  - pose proof (Hr body Hin) as Hseg.
    assert (forall r, In r (results body) ->
              (exists s, source r = source_tag s) /\ id_from_url r) as Hall.
    { intros r Hr0. destruct (segments_ok_tags _ _ r Hseg Hr0) as (s & Hs & Hrs).
      split; [eauto|]. destruct Hseg as [_ Hq]. specialize (Hq s).
      rewrite List.Forall_forall in Hq. now apply Hq. }
    split; [exact Hall|].
    intros r1 r2 H1 H2 Heq.
    destruct (Hall r1 H1) as [[s1 Hs1] Hi1]. destruct (Hall r2 H2) as [[s2 Hs2] Hi2].
    unfold id_from_url in *. rewrite Hi1, Hi2, Hs1, Hs2 in Heq.
    apply tag_id_inj in Heq as [-> Hu]. split; congruence.
Qed.

Lemma ids_derived_from_source_and_url_witness :
  In (Json (merged printables_down "benchy" call_all))
    (Loop.run three_requests Loop.boot).2 /\
  (forall r, In r (results (merged printables_down "benchy" call_all)) ->
     (exists s, source r = source_tag s) /\ lid r = source r +:+ "_" +:+ url r) /\
  (forall r1 r2,
     In r1 (results (merged printables_down "benchy" call_all)) ->
     In r2 (results (merged printables_down "benchy" call_all)) ->
     lid r1 = lid r2 -> source r1 = source r2 /\ url r1 = url r2).
Proof.
  assert (In (Json (merged printables_down "benchy" call_all))
            (Loop.run three_requests Loop.boot).2) as Hin
    by (vm_compute; right; right; left; reflexivity).
  split; [exact Hin|].
  exact (ids_derived_from_source_and_url three_requests _ Hin).
Defined.

Lemma search_capped w s : capped w -> length (value_or_empty (search s (w s))) <= 10.
Proof.
  intros Hw. unfold search. destruct (close_throws (w s)); cbn; [lia|].
  destruct (scrape (w s)) as [items|] eqn:E; cbn; [|lia].
  unfold formatResults. rewrite length_map. now apply (Hw s).
Qed.

(** X9. When no scraper run returns more than ten items, every response the
    server sends has at most ten listings of each platform, counts of at
    most ten and a [total] of at most thirty, also when parts of it were
    carried over from cached records. *)
Theorem counts_capped (sched : list Loop.Action) (body : Response) :
  Forall (action_ok capped) sched ->
  In (Json body) (Loop.run sched Loop.boot).2 ->
  (forall s, count_of s (sources body) <= 10) /\
  total body <= 30.
Proof.
  intros Hsched Hin.
  destruct (run_ok (fun _ l => length l <= 10) capped
              (fun w s Hw => search_capped w s Hw) sched Loop.boot) as [_ Hr].
  - exact Hsched.
  - apply boot_ok.
  - destruct (Hr body Hin) as [Hrs Hq].
    destruct (proj2 (run_wf sched Loop.boot boot_wf) body Hin) as [Htot Hcnt].
    split.
    + intros s. rewrite Hcnt. apply Hq.
    + rewrite Htot, Hrs, !length_app.
      pose proof (Hq Thingiverse). pose proof (Hq Printables). pose proof (Hq MakerWorld).
      lia.
Qed.

Lemma capped_two_each : capped two_each.
Proof. intros s items [= <-]. cbn. lia. Qed.

Lemma capped_printables_down : capped printables_down.
Proof. intros [] items; cbn; intros [= <-]; cbn; lia. Qed.

Lemma counts_capped_witness :
  Forall (action_ok capped) three_requests /\
  In (Json (merged printables_down "benchy" call_all))
    (Loop.run three_requests Loop.boot).2 /\
  (forall s, count_of s (sources (merged printables_down "benchy" call_all)) <= 10) /\
  total (merged printables_down "benchy" call_all) <= 30.
Proof.
  assert (Forall (action_ok capped) three_requests) as Hs.
  { unfold three_requests.
    repeat (apply List.Forall_cons; [cbn; first [exact I | exact capped_two_each
                                                | exact capped_printables_down]|]).
    apply List.Forall_nil. }
  assert (In (Json (merged printables_down "benchy" call_all))
            (Loop.run three_requests Loop.boot).2) as Hin
    by (vm_compute; right; right; left; reflexivity).
  split; [exact Hs|]. split; [exact Hin|].
  exact (counts_capped three_requests _ Hs Hin).
Defined.

(** ** The loops of the scrapers *)

Lemma push_capped_fold {A} (item : A -> option RawItem) (cards : list A) :
  forall items, length items <= 10 ->
    fold_left (push_capped item) cards items = firstn 10 (items ++ omap item cards)%list.
Proof.
  induction cards as [|c cards IH]; intros items Hlen; cbn [fold_left].
  - cbn. rewrite app_nil_r. symmetry. now apply take_ge.
  - unfold push_capped at 2. destruct (Nat.leb_spec 10 (length items)) as [Hfull|Hroom].
    + rewrite IH by assumption. rewrite !take_app_le by lia. reflexivity.
    + csimpl. destruct (item c) as [it|].
      * rewrite IH by (rewrite length_app; cbn; lia). now rewrite <- app_assoc.
      * now apply IH.
Qed.

Lemma makerworld_fold (elems : list MakerWorldLink) :
  forall items seen, length items <= 10 ->
    (fold_left makerworld_step elems (items, seen)).1 =
    firstn 10 (items ++ omap makerworldItem (first_occurrences seen elems))%list.
Proof.
  induction elems as [|e elems IH]; intros items seen Hlen; cbn [fold_left].
  - cbn. rewrite app_nil_r. symmetry. now apply take_ge.
  - unfold makerworld_step at 2.
    destruct (Nat.leb_spec 10 (length items)) as [Hfull|Hroom].
    + rewrite IH by assumption. rewrite !take_app_le by lia. reflexivity.
    + cbn [first_occurrences]. destruct (bool_decide (mw_href e ∈ seen)).
      * now apply IH.
      * csimpl. destruct (makerworldItem e) as [it|].
        -- rewrite IH by (rewrite length_app; cbn; lia). now rewrite <- app_assoc.
        -- now apply IH.
Qed.

(** X10. Each loop keeps the first ten items, in the order of the page: the
    Thingiverse and Printables scrapers those of the cards that have a link
    and a title, the MakerWorld scraper those of the links that have a title,
    a link whose [href] occurred earlier on the page being passed over. *)
Theorem scrapers_keep_first_ten (cards : list ThingCard)
  (articles : list PrintablesArticle) (elems : list MakerWorldLink) :
  thingiverseItems cards = firstn 10 (omap thingiverseItem cards) /\
  printablesItems articles = firstn 10 (omap printablesItem articles) /\
  makerworldItems elems = firstn 10 (omap makerworldItem (first_occurrences ∅ elems)).
Proof.
  split; [|split].
  - unfold thingiverseItems. rewrite push_capped_fold by (cbn; lia). reflexivity.
  - unfold printablesItems. rewrite push_capped_fold by (cbn; lia). reflexivity.
  - unfold makerworldItems. rewrite makerworld_fold by (cbn; lia). reflexivity.
Qed.

Lemma first_truthy_nonempty l s : first_truthy l = Some s -> s <> "".
Proof.
  induction l as [|[x|] l IH]; cbn; [discriminate| |exact IH].
  destruct (String.eqb_spec x ""); [exact IH|]. now intros [= <-].
Qed.

Lemma or_default_nonempty x d : d <> "" -> or_default x d <> "".
Proof.
  intros Hd. unfold or_default. destruct (first_truthy [x]) as [s|] eqn:E; [|exact Hd].
  now apply first_truthy_nonempty in E.
Qed.

Lemma absolute_http site link :
  (forall l, String.prefix "http" (site +:+ l) = true) ->
  String.prefix "http" (absolute site link) = true.
Proof.
  intros Hs. unfold absolute. destruct (String.prefix "http" link) eqn:E; [exact E|].
  apply Hs.
Qed.

Lemma thingiverseItem_complete card it :
  thingiverseItem card = Some it -> item_complete it /\ item_downloads it = 0%Z.
Proof.
  unfold thingiverseItem. destruct (tv_link card) as [link|]; [|discriminate].
  destruct (negb _ && negb _); [|discriminate]. intros [= <-].
  repeat split; cbn.
  - now apply or_default_nonempty.
  - apply absolute_http. intros l. reflexivity.
  - now apply or_default_nonempty.
Qed.

Lemma printablesItem_complete article it :
  printablesItem article = Some it -> item_complete it.
Proof.
  unfold printablesItem. destruct (pr_link article) as [link|]; [|discriminate].
  destruct (first_truthy _) as [t|] eqn:Ht; [|discriminate].
  destruct (negb _); [|discriminate]. intros [= <-].
  repeat split; cbn.
  - now apply first_truthy_nonempty in Ht.
  - apply absolute_http. intros l. reflexivity.
  - now apply or_default_nonempty.
Qed.

Lemma makerworldItem_complete elem it :
  makerworldItem elem = Some it -> item_complete it.
Proof.
  unfold makerworldItem.
  destruct (first_truthy [mw_img_alt elem; _; _; _]) as [t|] eqn:Ht; [|discriminate].
  destruct (negb _); [|discriminate]. intros [= <-].
  repeat split; cbn.
  - now apply first_truthy_nonempty in Ht.
  - apply absolute_http. intros l. reflexivity.
  - now apply or_default_nonempty.
Qed.

Lemma in_take_omap {A} (f : A -> option RawItem) (l : list A) it n :
  In it (firstn n (omap f l)) -> exists x, In x l /\ f x = Some it.
Proof.
  intros Hin. apply list_elem_of_In in Hin.
  apply (subseteq_take n) in Hin. apply list_elem_of_omap in Hin as (x & Hx & Hf).
  exists x. split; [now apply list_elem_of_In | exact Hf].
Qed.

Lemma thingiverseItems_eq cards :
  thingiverseItems cards = firstn 10 (omap thingiverseItem cards).
Proof. unfold thingiverseItems. now rewrite push_capped_fold by (cbn; lia). Qed.

Lemma printablesItems_eq articles :
  printablesItems articles = firstn 10 (omap printablesItem articles).
Proof. unfold printablesItems. now rewrite push_capped_fold by (cbn; lia). Qed.

Lemma makerworldItems_eq elems :
  makerworldItems elems = firstn 10 (omap makerworldItem (first_occurrences ∅ elems)).
Proof. unfold makerworldItems. now rewrite makerworld_fold by (cbn; lia). Qed.

(** X11. Whatever the pages hold, no scraper returns more than ten items,
    and every item it returns has a title that is not empty, a link that
    begins with "http" and an author that is not empty; the items of
    Thingiverse have 0 downloads. *)
Theorem scraped_items_complete (cards : list ThingCard)
  (articles : list PrintablesArticle) (elems : list MakerWorldLink) :
  capped (pages_world cards articles elems) /\
  (forall it, In it (thingiverseItems cards) ->
     item_complete it /\ item_downloads it = 0%Z) /\
  (forall it, In it (printablesItems articles) -> item_complete it) /\
  (forall it, In it (makerworldItems elems) -> item_complete it).
Proof.
  split; [|split; [|split]].
  - intros [] items; cbn; intros [= <-].
    + rewrite thingiverseItems_eq, length_take. lia.
    + rewrite printablesItems_eq, length_take. lia.
    + rewrite makerworldItems_eq, length_take. lia.
  - intros it Hin. rewrite thingiverseItems_eq in Hin.
    apply in_take_omap in Hin as (x & _ & Hx). now apply thingiverseItem_complete in Hx.
  - intros it Hin. rewrite printablesItems_eq in Hin.
    apply in_take_omap in Hin as (x & _ & Hx). now apply printablesItem_complete in Hx.
  - intros it Hin. rewrite makerworldItems_eq in Hin.
    apply in_take_omap in Hin as (x & _ & Hx). now apply makerworldItem_complete in Hx.
Qed.

Lemma append_inj_l p a b : p +:+ a = p +:+ b -> a = b.
Proof. induction p as [|c p IH]; cbn; [auto|]. intros H. injection H. exact IH. Qed.

Lemma first_occurrences_fresh elems : forall seen x,
  In x (first_occurrences seen elems) -> (mw_href x ∉ seen) /\ In x elems.
Proof.
  induction elems as [|e elems IH]; intros seen x; cbn; [intros []|].
  case_bool_decide as Hseen.
  - intros Hin. pose proof (IH _ _ Hin) as [? ?]. auto.
  - intros [Heq|Hin]; [subst x; auto|]. pose proof (IH _ _ Hin) as [Hx ?].
    split; [|auto]. intros Hs. apply Hx. apply elem_of_union. now right.
Qed.

Lemma first_occurrences_NoDup elems : forall seen,
  List.NoDup (map mw_href (first_occurrences seen elems)).
Proof.
  induction elems as [|e elems IH]; intros seen; cbn; [constructor|].
  case_bool_decide as Hseen; [apply IH|]. cbn. constructor; [|apply IH].
  intros Hin. apply in_map_iff in Hin as (x & Hx & Hin).
  apply first_occurrences_fresh in Hin as [Hfresh _]. set_solver.
Qed.

Lemma makerworldItem_link elem it :
  relative_href elem -> makerworldItem elem = Some it ->
  item_link it = "https://makerworld.com" +:+ mw_href elem.
Proof.
  unfold relative_href, makerworldItem. intros Hrel.
  destruct (first_truthy _) as [t|]; [|discriminate].
  destruct (negb _); [|discriminate]. intros [= <-]. cbn [item_link].
  unfold absolute. now rewrite Hrel.
Qed.

Lemma omap_links_NoDup (l : list MakerWorldLink) :
  Forall relative_href l -> List.NoDup (map mw_href l) ->
  List.NoDup (map item_link (omap makerworldItem l)).
Proof.
  induction l as [|e l IH]; intros Hrel Hnd; csimpl; [constructor|].
  inversion Hrel as [|? ? He Hl]; subst. inversion Hnd as [|? ? Hne Hnd']; subst.
  destruct (makerworldItem e) as [it|] eqn:Hit; [|now apply IH].
  cbn. constructor; [|now apply IH].
  intros Hin. apply in_map_iff in Hin as (it' & Hlink & Hin).
  apply list_elem_of_In, list_elem_of_omap in Hin as (x & Hx & Hx').
  apply list_elem_of_In in Hx.
  rewrite (makerworldItem_link e it He Hit) in Hlink.
  rewrite List.Forall_forall in Hl.
  rewrite (makerworldItem_link x it' (Hl x Hx) Hx') in Hlink.
  apply append_inj_l in Hlink. apply Hne. rewrite <- Hlink. now apply in_map.
Qed.

Lemma NoDup_firstn {A} n (l : list A) : List.NoDup l -> List.NoDup (firstn n l).
Proof.
  intros H. apply NoDup_ListNoDup. apply NoDup_ListNoDup in H.
  eapply sublist_NoDup; [exact H | apply sublist_take].
Qed.

Lemma first_occurrences_relative seen elems :
  Forall relative_href elems -> Forall relative_href (first_occurrences seen elems).
Proof.
  intros H. apply List.Forall_forall. intros x Hin.
  apply first_occurrences_fresh in Hin as [_ Hin].
  rewrite List.Forall_forall in H. now apply H.
Qed.

Lemma formatResults_ids_NoDup s items :
  List.NoDup (map item_link items) -> List.NoDup (map lid (formatResults s items)).
Proof.
  induction items as [|it items IH]; cbn; [constructor|].
  intros Hnd. inversion Hnd as [|? ? Hne Hnd']; subst. constructor; [|now apply IH].
  intros Hin. apply in_map_iff in Hin as (r & Heq & Hin).
  unfold formatResults in Hin. apply in_map_iff in Hin as (it' & <- & Hin).
  cbn [lid] in Heq. apply append_inj_l in Heq.
  change (String "_" (item_link it') = String "_" (item_link it)) in Heq.
  injection Heq as Heq. apply Hne. rewrite <- Heq. now apply in_map.
Qed.

(** X12. When the links of the MakerWorld page are relative to the site, no
    two items of the scraper have the same link, and no two of its listings
    have the same [id]. *)
Theorem makerworld_links_unique (elems : list MakerWorldLink) :
  Forall relative_href elems ->
  List.NoDup (map item_link (makerworldItems elems)) /\
  List.NoDup (map lid (formatResults MakerWorld (makerworldItems elems))).
Proof.
  intros Hrel.
  assert (List.NoDup (map item_link (makerworldItems elems))) as Hlinks.
  { rewrite makerworldItems_eq, <- List.firstn_map. apply NoDup_firstn.
    apply omap_links_NoDup; [now apply first_occurrences_relative|].
    apply first_occurrences_NoDup. }
  split; [exact Hlinks|]. now apply formatResults_ids_NoDup.
Qed.

Lemma makerworld_links_unique_witness :
  Forall relative_href [picture_link; other_link; name_link] /\
  List.NoDup (map item_link (makerworldItems [picture_link; other_link; name_link])) /\
  List.NoDup (map lid (formatResults MakerWorld
                         (makerworldItems [picture_link; other_link; name_link]))).
Proof.
  assert (Forall relative_href [picture_link; other_link; name_link]) as Hrel
    by (repeat (apply List.Forall_cons; [reflexivity|]); apply List.Forall_nil).
  split; [exact Hrel|].
  exact (makerworld_links_unique [picture_link; other_link; name_link] Hrel).
Defined.

Lemma first_occurrences_first pre e post : forall seen x,
  (forall y, In y pre -> mw_href y <> mw_href e) ->
  In x (first_occurrences seen (pre ++ e :: post)) ->
  mw_href x = mw_href e -> x = e.
Proof.
  induction pre as [|p pre IH]; intros seen x Hpre; cbn.
  - case_bool_decide as Hseen.
    + intros Hin Heq. apply first_occurrences_fresh in Hin as [Hfresh _]. congruence.
    + intros [<-|Hin] Heq; [reflexivity|].
      apply first_occurrences_fresh in Hin as [Hfresh _]. set_solver.
  - case_bool_decide as Hseen.
    + apply IH. intros y Hy. apply Hpre. now right.
    + intros [<-|Hin] Heq.
      * exfalso. apply (Hpre p); [now left | exact Heq].
      * revert Hin Heq. apply IH. intros y Hy. apply Hpre. now right.
Qed.

(** X13. When the first link of the MakerWorld page to a model has no title
    (a picture without text), the model is absent from the items of the
    scraper, also when a later link to it has a title: the [href] is marked
    as seen before the title is looked at. *)
Theorem makerworld_untitled_link_hides_model (pre post : list MakerWorldLink)
  (e : MakerWorldLink) :
  Forall relative_href (pre ++ e :: post) ->
  (forall x, In x pre -> mw_href x <> mw_href e) ->
  makerworldItem e = None ->
  forall it, In it (makerworldItems (pre ++ e :: post)) ->
    item_link it <> "https://makerworld.com" +:+ mw_href e.
Proof.
  intros Hrel Hpre Hnone it Hin Hlink. rewrite makerworldItems_eq in Hin.
  apply in_take_omap in Hin as (x & Hx & Hitem).
  pose proof (first_occurrences_fresh _ _ _ Hx) as [_ Hx'].
  rewrite List.Forall_forall in Hrel.
  rewrite (makerworldItem_link x it (Hrel x Hx') Hitem) in Hlink.
  apply append_inj_l in Hlink.
  assert (x = e) as -> by (eapply first_occurrences_first; eassumption).
  congruence.
Qed.

Lemma makerworld_untitled_link_hides_model_witness :
  Forall relative_href ([other_link] ++ picture_link :: [name_link]) /\
  (forall x, In x [other_link] -> mw_href x <> mw_href picture_link) /\
  makerworldItem picture_link = None /\
  forall it, In it (makerworldItems ([other_link] ++ picture_link :: [name_link])) ->
    item_link it <> "https://makerworld.com" +:+ mw_href picture_link.
Proof.
  assert (Forall relative_href ([other_link] ++ picture_link :: [name_link])) as Hrel
    by (repeat (apply List.Forall_cons; [reflexivity|]); apply List.Forall_nil).
  assert (forall x, In x [other_link] -> mw_href x <> mw_href picture_link) as Hpre
    by (intros x [<-|[]]; discriminate).
  split; [exact Hrel|]. split; [exact Hpre|]. split; [reflexivity|].
  exact (makerworld_untitled_link_hides_model [other_link] [name_link] picture_link
           Hrel Hpre eq_refl).
Defined.

(** ** The page *)









Lemma group_push_new acc r :
  ~ In (source r) (group_keys acc) ->
  group_push acc r = (acc ++ [(source r, [r])])%list.
Proof.
  induction acc as [|[k l] acc IH]; cbn; intros Hk; [reflexivity|].
  destruct (String.eqb_spec k (source r)) as [Heq|Hne]; [exfalso; auto|].
  rewrite IH by auto. reflexivity.
Qed.

Lemma group_push_last acc k cur r :
  source r = k -> ~ In k (group_keys acc) ->
  group_push (acc ++ [(k, cur)])%list r = (acc ++ [(k, (cur ++ [r])%list)])%list.
Proof.
  intros Hr. induction acc as [|[k0 l] acc IH]; cbn; intros Hk.
  - now rewrite Hr, String.eqb_refl.
  - destruct (String.eqb_spec k0 (source r)) as [Heq|Hne]; [exfalso; apply Hk; left; congruence|].
    rewrite IH by auto. reflexivity.
Qed.

Lemma fold_group_last k l : forall acc cur,
  List.Forall (fun r => source r = k) l -> ~ In k (group_keys acc) ->
  fold_left group_push l (acc ++ [(k, cur)])%list = (acc ++ [(k, (cur ++ l)%list)])%list.
Proof.
  induction l as [|r l IH]; intros acc cur Hl Hk; cbn [fold_left].
  - now rewrite app_nil_r.
  - inversion Hl as [|? ? Hr Hl']; subst.
    rewrite group_push_last by auto. rewrite IH by assumption.
    now rewrite <- app_assoc.
Qed.

Lemma fold_group_segment s l acc :
  tagged s l -> ~ In (source_tag s) (group_keys acc) ->
  fold_left group_push l acc =
  (acc ++ match l with [] => [] | r :: l' => [(source_tag s, r :: l')] end)%list.
Proof.
  intros Hl Hk. destruct l as [|r l]; cbn [fold_left]; [now rewrite app_nil_r|].
  inversion Hl as [|? ? Hr Hl']; subst.
  rewrite group_push_new by now rewrite Hr.
  rewrite Hr. now rewrite fold_group_last.
Qed.

Lemma group_keys_segment s (l : list Listing) k :
  In k (group_keys match l with [] => [] | r :: l' => [(source_tag s, r :: l')] end) ->
  k = source_tag s.
Proof. destruct l; cbn; [intros [] | intros [<-|[]]; reflexivity]. Qed.

Lemma grouped_platforms rs :
  rs = (by_source Thingiverse rs ++ by_source Printables rs
          ++ by_source MakerWorld rs)%list ->
  groupedResults rs = platform_groups rs.
Proof.
  intros Hrs. unfold groupedResults, platform_groups, all_sources. cbn [flat_map].
  rewrite app_nil_r. rewrite Hrs at 1. rewrite !fold_left_app.
  rewrite (fold_group_segment Thingiverse (by_source Thingiverse rs) [])
    by (apply tagged_by_source || (cbn; intros [])).
  cbn [app].
  rewrite (fold_group_segment Printables (by_source Printables rs)).
  - rewrite (fold_group_segment MakerWorld (by_source MakerWorld rs));
      [now rewrite <- app_assoc | apply tagged_by_source |].
    unfold group_keys. rewrite map_app. intros Hin.
    apply in_app_or in Hin as [Hin|Hin]; apply group_keys_segment in Hin; discriminate Hin.
  - apply tagged_by_source.
  - intros Hin. apply group_keys_segment in Hin. discriminate Hin.
Qed.

Lemma run_grouped sched body :
  In (Json body) (Loop.run sched Loop.boot).2 ->
  results body =
    (by_source Thingiverse (results body) ++ by_source Printables (results body)
       ++ by_source MakerWorld (results body))%list.
Proof.
  intros Hin.
  destruct (run_ok (fun _ _ => True) (fun _ => True) (fun _ _ _ => I) sched Loop.boot)
    as [_ Hr].
  - apply List.Forall_forall. intros a _. now destruct a.
  - apply boot_ok.
  - exact (proj1 (Hr body Hin)).
Qed.

(** X15. For every response the server sends, the page shows one row for
    each platform whose count is not 0 and none for the others, in the order
    Thingiverse, Printables, MakerWorld; the row shows the name of the
    platform, a number equal to the count of the platform in the response,
    and the listings of the platform in the order of the response. *)
Theorem page_rows_match_counts (sched : list Loop.Action) (body : Response) :
  In (Json body) (Loop.run sched Loop.boot).2 ->
  source_rows (results body) = counted_rows body.
Proof.
  intros Hin. pose proof (run_grouped sched body Hin) as Hrs.
  destruct (proj2 (run_wf sched Loop.boot boot_wf) body Hin) as [_ Hcnt].
  unfold source_rows. rewrite (grouped_platforms _ Hrs).
  unfold platform_groups, counted_rows, all_sources. cbn [flat_map].
  rewrite !app_nil_r, !map_app.
  assert (forall s,
            map (fun g : string * list Listing => (getSourceName g.1, length g.2, g.2))
              match by_source s (results body) with
              | [] => []
              | r :: l => [(source_tag s, r :: l)]
              end =
            if (count_of s (sources body) =? 0)%nat then []
            else [(getSourceName (source_tag s), count_of s (sources body),
                   by_source s (results body))]) as Hrow.
  { intros s. rewrite (Hcnt s). destruct (by_source s (results body)); reflexivity. }
  now rewrite !Hrow.
Qed.

Lemma page_rows_match_counts_witness :
  In (Json (merged printables_down "benchy" call_all))
    (Loop.run three_requests Loop.boot).2 /\
  source_rows (results (merged printables_down "benchy" call_all)) =
    counted_rows (merged printables_down "benchy" call_all).
Proof.
  assert (In (Json (merged printables_down "benchy" call_all))
            (Loop.run three_requests Loop.boot).2) as Hin
    by (vm_compute; right; right; left; reflexivity).
  split; [exact Hin|].
  exact (page_rows_match_counts three_requests _ Hin).
Defined.




(** ** The health endpoint *)

Lemma upsert_size t q rs c (d : gmap string Row) :
  size (upsert t q rs c d) = match d !! q with Some _ => size d | None => S (size d) end.
Proof.
  unfold upsert. destruct (d !! q) as [old|] eqn:Hq.
  - rewrite map_size_insert_Some; [reflexivity | eauto].
  - now rewrite map_size_insert_None.
Qed.

(** X17. [totalSearches] counts the queries that have a row: a request adds
    one to it exactly when the query had no row and has one afterwards, and
    leaves it as it was otherwise, however often a query is searched. *)
Theorem health_counts_queries (b : bool) (e : Env) (st : State) (q : string) :
  totalSearches (health b (handle e st (Some q)).1.2) =
  totalSearches (health b st) +
  match db st !! q, db (handle e st (Some q)).1.2 !! q with
  | None, Some _ => 1
  | _, _ => 0
  end.
Proof.
  cbn [health totalSearches].
  destruct (handle_state e st q) as [->|[r ->]].
  - destruct (db st !! q); lia.
  - unfold written. cbn [db]. destruct (db_ok (completion e)).
    + rewrite upsert_size.
      destruct (upsert_lookup (now (completion e)) q (results r) (sources r) (db st))
        as (row & -> & _).
      destruct (db st !! q); lia.
    + destruct (db st !! q); lia.
Qed.

Lemma max_updated_at_spec (d : gmap string Row) :
  match max_updated_at d with
  | None => d = ∅
  | Some m =>
      (exists q row, d !! q = Some row /\ updated_at row = m) /\
      forall q row, d !! q = Some row -> (updated_at row <= m)%Z
  end.
Proof.
  unfold max_updated_at.
  apply (map_fold_weak_ind
           (fun (acc : option Z) (d : gmap string Row) =>
              match acc with
              | None => d = ∅
              | Some m =>
                  (exists q row, d !! q = Some row /\ updated_at row = m) /\
                  forall q row, d !! q = Some row -> (updated_at row <= m)%Z
              end)); [reflexivity|].
  intros i x m r Hi Hr. destruct r as [mx|].
  - destruct Hr as [(q & row & Hrow & Hm) Hle]. split.
    + destruct (Z.max_spec (updated_at x) mx) as [[_ ->]|[_ ->]].
      * exists q, row. split; [|exact Hm]. rewrite lookup_insert_ne; [exact Hrow|].
        intros ->. congruence.
      * exists i, x. split; [apply lookup_insert_eq | reflexivity].
    + intros q' row'. destruct (decide (i = q')) as [<-|Hne].
      * rewrite lookup_insert_eq. intros [= <-]. lia.
      * rewrite lookup_insert_ne by assumption. intros H. specialize (Hle q' row' H). lia.
  - subst m. split.
    + exists i, x. split; [apply lookup_insert_eq | reflexivity].
    + intros q' row'. destruct (decide (i = q')) as [<-|Hne].
      * rewrite lookup_insert_eq. intros [= <-]. lia.
      * rewrite lookup_insert_ne by assumption. rewrite lookup_empty. discriminate.
Qed.

(** X18. After a request that invoked a scraper and whose write to the table
    did not throw, at a time that no row is ahead of, the health endpoint
    reports the time of that write as [lastUpdate] and at least one search. *)
Theorem health_reports_last_write (b : bool) (e : Env) (st : State) (q : string) :
  invoked (handle e st (Some q)).2 <> [] ->
  db_ok (completion e) = true ->
  (forall q' row, db st !! q' = Some row -> (updated_at row <= now (completion e))%Z) ->
  lastUpdate (health b (handle e st (Some q)).1.2) = Some (now (completion e)) /\
  0 < totalSearches (health b (handle e st (Some q)).1.2).
Proof.
  intros Hinv Hw Hclock. cbn [health lastUpdate totalSearches].
  assert (exists r, (handle e st (Some q)).1.2 = written (completion e) q r st) as [r ->].
  { destruct (decide (q = "")) as [->|Hq]; [now contradiction Hinv|].
    destruct (db_read (arrival e) st q) as [c|] eqn:Hc.
    - destruct (needsRefresh c) eqn:Hn.
      + rewrite (handle_partial e st q c) by assumption. eauto.
      + rewrite (handle_fresh e st q c) in Hinv by assumption. now contradiction Hinv.
    - destruct (cache_lookup (now (arrival e)) (cache st) (cacheKey q)) as [r|] eqn:Hm.
      + rewrite (handle_memory e st q r) in Hinv by assumption. now contradiction Hinv.
      + rewrite (handle_full e st q) by assumption. eauto. }
  unfold written. cbn [db]. rewrite Hw.
  destruct (upsert_lookup (now (completion e)) q (results r) (sources r) (db st))
    as (row & Hrow & _ & _ & Hup).
  split.
  - pose proof (max_updated_at_spec
                  (upsert (now (completion e)) q (results r) (sources r) (db st))) as Hspec.
    destruct (max_updated_at _) as [m|].
    + destruct Hspec as [(q' & row' & Hrow' & Hm) Hle]. f_equal.
      pose proof (Hle q row Hrow) as Hge.
      assert (updated_at row' <= now (completion e))%Z as Hle'.
      { destruct (decide (q = q')) as [<-|Hne].
        - assert (row' = row) as -> by congruence. lia.
        - rewrite upsert_lookup_ne in Hrow' by assumption. now apply (Hclock q'). }
      lia.
    + rewrite Hspec in Hrow. rewrite lookup_empty in Hrow. discriminate.
  - rewrite upsert_size. destruct (db st !! q) eqn:Hq; [|lia].
    destruct (decide (size (db st) = 0)) as [Hz|Hz]; [|lia].
    apply map_size_empty_iff in Hz. rewrite Hz, lookup_empty in Hq. discriminate.
Qed.

Lemma health_reports_last_write_witness :
  invoked (handle (env_at 10 two_each) (Loop.state sys_printables_missing)
             (Some "phone holder")).2 <> [] /\
  db_ok (completion (env_at 10 two_each)) = true /\
  (forall q' row, db (Loop.state sys_printables_missing) !! q' = Some row ->
                  (updated_at row <= now (completion (env_at 10 two_each)))%Z) /\
  lastUpdate (health true (handle (env_at 10 two_each)
                             (Loop.state sys_printables_missing)
                             (Some "phone holder")).1.2)
    = Some (now (completion (env_at 10 two_each))) /\
  0 < totalSearches (health true (handle (env_at 10 two_each)
                                    (Loop.state sys_printables_missing)
                                    (Some "phone holder")).1.2).
Proof.
  assert (invoked (handle (env_at 10 two_each) (Loop.state sys_printables_missing)
                     (Some "phone holder")).2 <> []) as Hinv
    by (vm_compute; discriminate).
  assert (forall q' row, db (Loop.state sys_printables_missing) !! q' = Some row ->
                         (updated_at row <= now (completion (env_at 10 two_each)))%Z)
    as Hclock.
  { intros q' row. destruct (decide (q' = "phone holder")) as [->|Hne].
    - intros H. assert (row = row_printables_missing) as ->
        by (vm_compute in H; injection H as <-; reflexivity).
      vm_compute. discriminate.
    - change (db (Loop.state sys_printables_missing))
        with (db (written (tick 5) "phone holder"
                    (merged printables_down "phone holder" call_all) empty_state)).
      unfold written. cbn [db db_ok tick]. rewrite upsert_lookup_ne by congruence.
      cbn. rewrite lookup_empty. discriminate. }
  split; [exact Hinv|]. split; [reflexivity|]. split; [exact Hclock|].
  exact (health_reports_last_write true (env_at 10 two_each)
           (Loop.state sys_printables_missing) "phone holder" Hinv eq_refl Hclock).
Defined.

(** ** Completions in the event loop *)

(** X19. When the promises of a suspended request settle, the request is
    answered with a response for its own query, the memory cache holds that
    response under the key of the query for the next hour and, when the
    write to the table does not throw, so does the row of the query, with
    the time of the completion; whatever the caches held before, also from
    a request for the same query that completed in between. *)
Theorem completion_writes_what_it_sends (s : Loop.Sys) (i : nat) (p : Pending)
  (w : Source -> AdapterRun) (t : Tick) :
  Loop.inflight s !! i = Some p ->
  exists body,
    (Loop.step (Loop.Complete i w t) s).2 = Some (Json body) /\
    query body = pending_query p /\
    Loop.inflight (Loop.step (Loop.Complete i w t) s).1.1 = delete i (Loop.inflight s) /\
    cache (Loop.state (Loop.step (Loop.Complete i w t) s).1.1)
      !! cacheKey (pending_query p) = Some ((now t + stdTTL)%Z, body) /\
    (db_ok t = true ->
       exists row,
         db (Loop.state (Loop.step (Loop.Complete i w t) s).1.1)
           !! pending_query p = Some row /\
         row_results row = results body /\
         row_sources row = sources body /\
         updated_at row = now t).
Proof.
  intros Hp. cbn [Loop.step]. rewrite Hp, search_finish_eq. cbn [fst snd Loop.state Loop.inflight].
  eexists. split; [reflexivity|]. split; [reflexivity|]. split; [reflexivity|]. split.
  - unfold written. cbn [cache]. apply lookup_insert_eq.
  - intros Hw. unfold written. cbn [db]. rewrite Hw.
    match goal with
    | |- context [upsert ?a ?b ?c ?d ?m] =>
        destruct (upsert_lookup a b c d m) as (row & Hrow & Hrs & Hsrc & Hup)
    end.
    exists row. auto.
Qed.

Lemma completion_writes_what_it_sends_witness :
  Loop.inflight (Loop.run (firstn 3 two_arrivals) Loop.boot).1.1 !! 0
    = Some (full_pending "phone holder") /\
  exists body,
    (Loop.step (Loop.Complete 0 printables_down (tick 6))
       (Loop.run (firstn 3 two_arrivals) Loop.boot).1.1).2 = Some (Json body) /\
    query body = pending_query (full_pending "phone holder") /\
    Loop.inflight (Loop.step (Loop.Complete 0 printables_down (tick 6))
                     (Loop.run (firstn 3 two_arrivals) Loop.boot).1.1).1.1
      = delete 0 (Loop.inflight (Loop.run (firstn 3 two_arrivals) Loop.boot).1.1) /\
    cache (Loop.state (Loop.step (Loop.Complete 0 printables_down (tick 6))
                         (Loop.run (firstn 3 two_arrivals) Loop.boot).1.1).1.1)
      !! cacheKey (pending_query (full_pending "phone holder"))
      = Some ((now (tick 6) + stdTTL)%Z, body) /\
    (db_ok (tick 6) = true ->
       exists row,
         db (Loop.state (Loop.step (Loop.Complete 0 printables_down (tick 6))
                           (Loop.run (firstn 3 two_arrivals) Loop.boot).1.1).1.1)
           !! pending_query (full_pending "phone holder") = Some row /\
         row_results row = results body /\
         row_sources row = sources body /\
         updated_at row = now (tick 6)).
Proof.
  assert (Loop.inflight (Loop.run (firstn 3 two_arrivals) Loop.boot).1.1 !! 0
          = Some (full_pending "phone holder")) as Hp by (vm_compute; reflexivity).
  split; [exact Hp|].
  exact (completion_writes_what_it_sends
           (Loop.run (firstn 3 two_arrivals) Loop.boot).1.1 0
           (full_pending "phone holder") printables_down (tick 6) Hp).
Defined.
